(** * WebDNN: backend selection ([webdnn.ts]) and the ResNet50 demo
      page with its GPU crash tracker ([scripts/resnet50.ts])

    The TypeScript sources are embedded shallowly.  Asynchronous functions
    are run to completion one after the other (the code awaits every
    promise before it goes on), so an [async] function is a computation in
    a state-and-exception monad over the JavaScript world: the heap of
    arrays, the console and the calls made to the backend classes, whose
    sources are not part of this slice and are therefore an environment. *)

From stdpp Require Import base gmap list strings pretty.
From Stdlib Require Import ZArith Lia QArith Ascii.

Local Open Scope string_scope.
Local Open Scope Z_scope.
Local Open Scope stdpp_scope.
Local Open Scope list_scope.

(** ** A fragment of JavaScript *)

Module JS.

(** References to arrays living on the heap. *)
Definition loc := positive.

(** Values of type [any] whose content the code never inspects
    (per-backend option blobs, progress callbacks). *)
Definition any := nat.

(** A value thrown by code outside the modelled file (a backend class,
    the engine, an object of the caller), by what a catch handler of the
    file can do with it.  [shown] is its string conversion, as in a
    template string, and [message] is its [message] read and converted
    the same way.  Either evaluation gives a string or throws in turn:
    reading [message] off [undefined] or [null] throws a TypeError, and
    so does converting a symbol or an object that has no [toString]. *)
Inductive foreign :=
| mkForeign (shown message : evaluation)
with evaluation :=
| Gives (s : string)
| Throws (g : foreign).

Definition shown (f : foreign) : evaluation :=
  match f with mkForeign s _ => s end.

Definition message (f : foreign) : evaluation :=
  match f with mkForeign _ m => m end.

(** Exceptions.  [Error m] is an object made by [new Error(m)] in the
    modelled file; [Foreign f] is whatever came from outside it. *)
Inductive exn :=
| Error (msg : string)
| Foreign (f : foreign).

(** One entry per call the file makes on a backend class or on a
    runner, in the order in which they are made. *)
Inductive call :=
| CallNew (backend : string) (option_ : option any)
| CallInit (backend : string)
| CallLoad (backend : string) (directory : string) (ignoreCache : bool)
           (progressCallback : option any).

(** The backend a call is made on. *)
Definition backend_of (c : call) : string :=
  match c with
  | CallNew backend _ => backend
  | CallInit backend => backend
  | CallLoad backend _ _ _ => backend
  end.

Record World := mkWorld {
  heap : gmap loc (list string);
  console : list string;
  journal : list call
}.

(** Outcome of running a computation: a value, a thrown exception, or
    the loop bound of the model was hit. *)
Inductive Result (A : Type) :=
| Return (a : A)
| Throw (ex : exn)
| OutOfFuel.
Arguments Return {A} a.
Arguments Throw {A} ex.
Arguments OutOfFuel {A}.

Definition M (A : Type) : Type := World → Result A * World.

#[export] Instance M_ret : MRet M := λ A a w, (Return a, w).
#[export] Instance M_bind : MBind M := λ A B f m w,
  match m w with
  | (Return a, w') => f a w'
  | (Throw ex, w') => (Throw ex, w')
  | (OutOfFuel, w') => (OutOfFuel, w')
  end.

Definition throw {A} (ex : exn) : M A := λ w, (Throw ex, w).

(** An evaluation that gives a string or throws. *)
Definition evaluated (v : evaluation) : M string :=
  match v with
  | Gives s => mret s
  | Throws g => throw (Foreign g)
  end.

(** String conversion of an exception, as in a template string. *)
Definition to_string (ex : exn) : M string :=
  match ex with
  | Error m => mret ("Error: " +:+ m)
  | Foreign f => evaluated (shown f)
  end.

(** [ex.message] in a template string. *)
Definition message_of (ex : exn) : M string :=
  match ex with
  | Error m => mret m
  | Foreign f => evaluated (message f)
  end.

(** [try { body } catch (ex) { handler }] *)
Definition try_catch {A} (body : M A) (handler : exn → M A) : M A := λ w,
  match body w with
  | (Throw ex, w') => handler ex w'
  | r => r
  end.

(** [console.warn(msg)] *)
Definition console_warn (msg : string) : M () := λ w,
  (Return (), mkWorld (heap w) (console w ++ [msg]) (journal w)).

Definition log_call (c : call) : M () := λ w,
  (Return (), mkWorld (heap w) (console w) (journal w ++ [c])).

Definition get_journal : M (list call) := λ w, (Return (journal w), w).

(** Array literals and the [Array.prototype] methods the sources use. *)
Definition contents (a : loc) (w : World) : list string := heap w !!! a.

Definition new_array (xs : list string) : M loc := λ w,
  let a := fresh (dom (heap w)) in
  (Return a, mkWorld (<[a := xs]> (heap w)) (console w) (journal w)).

Definition array_length (a : loc) : M nat := λ w,
  (Return (length (contents a w)), w).

(** [a.slice()]: a fresh array with the same elements. *)
Definition array_slice (a : loc) : M loc := λ w, new_array (contents a w) w.

(** [a.concat(ys)]: a fresh array; [a] itself is left as it is. *)
Definition array_concat (a : loc) (ys : list string) : M loc := λ w,
  new_array (contents a w ++ ys) w.

Fixpoint index_from (i : Z) (x : string) (xs : list string) : Z :=
  match xs with
  | [] => -1
  | y :: ys => if decide (y = x) then i else index_from (i + 1) x ys
  end.

(** [xs.indexOf(x)] on the elements. *)
Definition indexOf (x : string) (xs : list string) : Z := index_from 0 x xs.

Definition array_indexOf (a : loc) (x : string) : M Z := λ w,
  (Return (indexOf x (contents a w)), w).

(** [a.shift()]: removes the first element in place and returns it
    ([undefined], here [None], on an empty array). *)
Definition array_shift (a : loc) : M (option string) := λ w,
  match contents a w with
  | [] => (Return None, w)
  | x :: xs =>
      (Return (Some x), mkWorld (<[a := xs]> (heap w)) (console w) (journal w))
  end.

(** [xs.splice(start, deleteCount)] on the elements: a negative [start]
    counts from the end and is clamped at 0, one beyond the end is
    clamped at the length. *)
Definition splice (start : Z) (deleteCount : nat) (xs : list string)
  : list string :=
  let len := Z.of_nat (length xs) in
  let s := if decide (start < 0) then Z.max (len + start) 0
           else Z.min start len in
  take (Z.to_nat s) xs ++ drop (Z.to_nat s + deleteCount) xs.

(** String-keyed properties every object literal inherits from
    [Object.prototype]; the [in] operator sees them. *)
Definition Object_prototype_keys : list string :=
  [ "constructor"; "hasOwnProperty"; "isPrototypeOf";
    "propertyIsEnumerable"; "toLocaleString"; "toString"; "valueOf";
    "__proto__"; "__defineGetter__"; "__defineSetter__";
    "__lookupGetter__"; "__lookupSetter__" ].

(** [key in obj] for an object literal [obj] with own properties [own]. *)
Definition js_in {V} (key : string) (own : gmap string V) : bool :=
  bool_decide (is_Some (own !! key))
  || bool_decide (key ∈ Object_prototype_keys).

(** The double-quote character, for template strings that contain it. *)
Definition dquote : string := String (Ascii.ascii_of_nat 34) EmptyString.

End JS.

(** ** [descriptor_runner/webdnn.ts] *)

Module WebDNN.
Import JS.

(** A backend class ([DescriptorRunnerConstructor]).  The three classes
    are imported by [webdnn.ts] from files outside this slice, so what
    their static [checkAvailability], constructor, [init] and [load] do
    is given by the environment; an instance method may answer
    differently depending on the calls made before it.  [None] means the
    call returned (or its promise resolved), [Some f] that it threw (or
    rejected with) [f]. *)
Record DescriptorRunnerConstructor := mkClass {
  checkAvailability : bool;
  construct : list call → option any → option foreign;
  init : list call → option foreign;
  load_model : list call → string → bool → option any → option foreign
}.

Record Env := mkEnv {
  DescriptorRunnerWebGPU : DescriptorRunnerConstructor;
  DescriptorRunnerWebassembly : DescriptorRunnerConstructor;
  DescriptorRunnerFallback : DescriptorRunnerConstructor;
  (** the engine's TypeError when a property inherited from
      [Object.prototype] that is no constructor is used with [new] *)
  TypeError : string → foreign;
  (** [Object], which the registry inherits as ['constructor']:
      [new Object(option)] does not throw and hands back [option]
      itself when that is an object.  What [init()] and [load()]
      called on the object do, and what assigning its [ignoreCache]
      does (the file is a module, so the assignment throws on a frozen
      object), lies outside the file; each may depend on the calls
      made before, the [new] with its option among them. *)
  Object_init : list call → option foreign;
  Object_assign : list call → bool → option foreign;
  Object_load : list call → string → bool → option any → option foreign
}.

(** Modelled from the spec: the runner classes are outside this slice.
    By the runner contract an instance exposes [backendName], which
    backend it is, and a mutable [ignoreCache] flag.  Here
    [backendName] is the name the runner was made under, which is that
    name for an instance of a registered class.  [initialized] and
    [loaded] record whether [init()] and [load()] have succeeded on
    it. *)
Record DescriptorRunner := mkRunner {
  klass : DescriptorRunnerConstructor;
  backendName : string;
  runner_ignoreCache : bool;
  initialized : bool;
  loaded : bool
}.

(** [BackendName] is the union type ['webgpu' | 'webassembly' |
    'fallback']; at run time a backend name is a string. *)
Definition BackendName (s : string) : Prop :=
  s = "webgpu" ∨ s = "webassembly" ∨ s = "fallback".

Section WithEnv.
Context (env : Env).

Definition descriptorRunners : gmap string DescriptorRunnerConstructor :=
  {[ "webgpu" := DescriptorRunnerWebGPU env;
     "webassembly" := DescriptorRunnerWebassembly env;
     "fallback" := DescriptorRunnerFallback env ]}.

Record BackendAvailability := mkAvailability {
  status : gmap string bool;
  defaultOrder : list string
}.

(** [descriptorRunners[k].checkAvailability()] *)
Definition check (k : string) : bool :=
  from_option checkAvailability false (descriptorRunners !! k).

Definition getBackendAvailability : BackendAvailability :=
  let status : gmap string bool :=
    {[ "webgpu" := check "webgpu";
       "webassembly" := check "webassembly";
       "fallback" := check "fallback" ]} in
  let order :=
    filter (λ backend, status !! backend = Some true)
           ["webgpu"; "webassembly"; "fallback"] in
  {| status := status; defaultOrder := order |}.

(** [Object] seen as a class: its constructor never throws, and
    [checkAvailability] is never asked of it. *)
Definition Object_class : DescriptorRunnerConstructor :=
  mkClass false (λ _ _, None) (Object_init env) (Object_load env).

(** [descriptorRunners[backendName]] where it can be used with [new]: a
    registered class, or [Object] for ['constructor'].  The other
    properties inherited from [Object.prototype] are methods or plain
    objects, none of them a constructor. *)
Definition constructor_at (backendName : string)
  : option DescriptorRunnerConstructor :=
  match descriptorRunners !! backendName with
  | Some cls => Some cls
  | None =>
      if decide (backendName = "constructor") then Some Object_class else None
  end.

(** [new descriptorRunners[backendName](option)].  [option_] is the own
    entry of [backendOptions]; for ['constructor'] without an own entry
    ([None]) the value read is the inherited [Object] function, not
    [undefined].  The runner keeps the name it was made under. *)
Definition new_runner (backendName : string) (option_ : option any)
  : M DescriptorRunner :=
  match constructor_at backendName with
  | Some cls =>
      j ← get_journal;
      log_call (CallNew backendName option_);;
      match construct cls j option_ with
      | None => mret (mkRunner cls backendName false false false)
      | Some f => throw (Foreign f)
      end
  | None => throw (Foreign (TypeError env backendName))
  end.

(** [await runner.init()] *)
Definition runner_init (runner : DescriptorRunner) : M DescriptorRunner :=
  j ← get_journal;
  log_call (CallInit (backendName runner));;
  match init (klass runner) j with
  | None =>
      mret (mkRunner (klass runner) (backendName runner)
                     (runner_ignoreCache runner) true (loaded runner))
  | Some f => throw (Foreign f)
  end.

(** [await runner.load(directory, progressCallback)] *)
Definition runner_load (runner : DescriptorRunner) (directory : string)
    (progressCallback : option any) : M DescriptorRunner :=
  j ← get_journal;
  log_call (CallLoad (backendName runner) directory
                     (runner_ignoreCache runner) progressCallback);;
  match load_model (klass runner) j directory
                   (runner_ignoreCache runner) progressCallback with
  | None =>
      mret (mkRunner (klass runner) (backendName runner)
                     (runner_ignoreCache runner) (initialized runner) true)
  | Some f => throw (Foreign f)
  end.

(** [new Error(`Unknown backend: "${backendName}"`)] *)
Definition unknown_backend (backendName : string) : exn :=
  Error ("Unknown backend: " +:+ dquote +:+ backendName +:+ dquote).

(** The [catch] block of [initBackend], lines 105-106. *)
Definition initBackend_catch (backendName : string) (ex : exn)
  : M (option DescriptorRunner) :=
  shown_ex ← to_string ex;
  console_warn ("Failed to initialize " +:+ backendName
                +:+ " backend: " +:+ shown_ex);;
  mret None.

Definition initBackend (backendName : string) (option_ : option any)
  : M (option DescriptorRunner) :=
  if negb (js_in backendName descriptorRunners) then
    throw (unknown_backend backendName)
  else
    try_catch
      (runner ← new_runner backendName option_;
       runner ← runner_init runner;
       mret (Some runner))
      (initBackend_catch backendName).

Inductive BackendOrder :=
| OrderName (name : string)
| OrderArray (ref : loc).

Record InitOption := mkInitOption {
  backendOrder : option BackendOrder;
  backendOptions : option (gmap string any);
  ignoreCache : option bool;
  progressCallback : option any
}.

(** [runner.ignoreCache = b] *)
Definition set_ignoreCache (runner : DescriptorRunner) (b : bool)
  : DescriptorRunner :=
  mkRunner (klass runner) (backendName runner) b
           (initialized runner) (loaded runner).

(** Line 195, outside any [try].  Modelled from the spec: an instance
    of a backend class has the mutable [ignoreCache] flag of the runner
    contract, so the assignment goes through; any other runner is the
    object [new Object(option)] handed back. *)
Definition assign_ignoreCache (runner : DescriptorRunner) (b : bool)
  : M DescriptorRunner :=
  match descriptorRunners !! backendName runner with
  | Some _ => mret (set_ignoreCache runner b)
  | None =>
      j ← get_journal;
      match Object_assign env j b with
      | None => mret (set_ignoreCache runner b)
      | Some f => throw (Foreign f)
      end
  end.

(** The [catch] block of [load], line 200, and the [return] it falls
    through to. *)
Definition load_catch (backendName : string) (runner : DescriptorRunner)
    (ex : exn) : M DescriptorRunner :=
  message_ex ← message_of ex;
  console_warn ("Model loading failed for " +:+ backendName
                +:+ " backend. Trying next backend: " +:+ message_ex);;
  mret runner.

(** Lines 195-203 of [load]: what is done with a runner that
    [initBackend] handed back.  [Boolean(undefined)] is [false]. *)
Definition load_into (directory : string) (initOption : InitOption)
    (backendName : string) (runner : DescriptorRunner)
  : M DescriptorRunner :=
  runner ← assign_ignoreCache runner (default false (ignoreCache initOption));
  try_catch
    (runner_load runner directory (progressCallback initOption))
    (load_catch backendName runner).

(** A backend whose initialization fails whenever it is tried. *)
Definition never_initializes (backendName : string) : Prop :=
  ∀ option_ w, (initBackend backendName option_ w).1 = Return None.

(** The [while] loop of [load], one iteration per unit of fuel. *)
Fixpoint load_loop (fuel : nat) (directory : string)
    (initOption : InitOption) (backendOptions : gmap string any)
    (backendOrder : loc) : M DescriptorRunner :=
  match fuel with
  | O => λ w, (OutOfFuel, w)
  | S fuel' =>
      len ← array_length backendOrder;
      if decide (0 < len)%nat then
        shifted ← array_shift backendOrder;
        let backendName := default "undefined" shifted in
        runner ← initBackend backendName (backendOptions !! backendName);
        match runner with
        | None =>
            load_loop fuel' directory initOption backendOptions backendOrder
        | Some runner => load_into directory initOption backendName runner
        end
      else throw (Error "No backend is available")
  end.

Definition load (directory : string) (initOption : InitOption)
  : M DescriptorRunner :=
  backendOrder0 ←
    match backendOrder initOption with
    | None => new_array ["webgpu"; "webassembly"]
    | Some (OrderName name) =>
        if decide (name = EmptyString)
        then new_array ["webgpu"; "webassembly"]
        else new_array [name]
    | Some (OrderArray ref) => mret ref
    end;
  backendOrder1 ← array_slice backendOrder0;
  i ← array_indexOf backendOrder1 "fallback";
  (if decide (i = -1)
   then (_ ← array_concat backendOrder1 ["fallback"]; mret ())
   else mret ());;
  let backendOptions := default ∅ (backendOptions initOption) in
  n ← array_length backendOrder1;
  load_loop (S n) directory initOption backendOptions backendOrder1.

(** Lines 180-187 read on the elements: what the array the loop
    starts from holds. *)
Definition requested_order (initOption : InitOption) (w : World)
  : list string :=
  match backendOrder initOption with
  | None => ["webgpu"; "webassembly"]
  | Some (OrderName name) =>
      if decide (name = EmptyString)
      then ["webgpu"; "webassembly"]
      else [name]
  | Some (OrderArray ref) => contents ref w
  end.

(** The backends a journal shows to have been constructed, in order. *)
Definition attempted (j : list call) : list string :=
  omap (λ c, match c with CallNew k _ => Some k | _ => None end) j.

(** [load] gets as far as its loop, on an array that holds [order],
    without a word on the console or a call to a backend. *)
Definition starts_on (directory : string) (initOption : InitOption)
    (w : World) (order : list string) : Prop :=
  ∃ a w1,
    load directory initOption w =
      load_loop (S (length order)) directory initOption
                (default ∅ (backendOptions initOption)) a w1
    ∧ contents a w1 = order
    ∧ console w1 = console w ∧ journal w1 = journal w.

(** What can be seen of a run from outside: how it ended, what went to
    the console, which calls were made. *)
Definition observe {A} (r : Result A * World)
  : Result A * list string * list call :=
  (r.1, console r.2, journal r.2).

(** [initOption] with its [backendOrder] replaced. *)
Definition with_order (initOption : InitOption) (order : BackendOrder)
  : InitOption :=
  mkInitOption (Some order) (backendOptions initOption)
               (ignoreCache initOption) (progressCallback initOption).

End WithEnv.

(** *** Sample environments *)

Definition works : DescriptorRunnerConstructor :=
  mkClass true (λ _ _, None) (λ _, None) (λ _ _ _ _, None).

(** An [Error] object made outside the file. *)
Definition an_Error (name msg : string) : foreign :=
  mkForeign (Gives (name +:+ ": " +:+ msg)) (Gives msg).

Definition no_device : DescriptorRunnerConstructor :=
  mkClass false (λ _ _, None)
          (λ _, Some (an_Error "Error" "no device"))
          (λ _ _ _ _, None).

Definition no_model : DescriptorRunnerConstructor :=
  mkClass true (λ _ _, None) (λ _, None)
          (λ _ _ _ _, Some (an_Error "Error" "404")).

Definition not_a_constructor (key : string) : foreign :=
  an_Error "TypeError" "descriptorRunners[backendName] is not a constructor".

Definition not_a_function (method : string) : foreign :=
  an_Error "TypeError" ("runner." +:+ method +:+ " is not a function").

(** [undefined] as a thrown value: it converts to a string, its
    [message] cannot be read. *)
Definition undefined : foreign :=
  mkForeign (Gives "undefined")
    (Throws (an_Error "TypeError"
               "Cannot read properties of undefined (reading 'message')")).

(** A backend whose [load()] rejects without a reason. *)
Definition rejects_undefined : DescriptorRunnerConstructor :=
  mkClass true (λ _ _, None) (λ _, None) (λ _ _ _ _, Some undefined).

(** A browser with the three backend classes as given, in which the
    option objects have no [init] and no [load]. *)
Definition env_of (gpu wasm fallback : DescriptorRunnerConstructor) : Env :=
  mkEnv gpu wasm fallback not_a_constructor
        (λ _, Some (not_a_function "init")) (λ _ _, None)
        (λ _ _ _ _, Some (not_a_function "load")).

(** WebGPU initializes but its model files cannot be fetched. *)
Definition env_gpu_model_missing : Env := env_of no_model works works.

(** Neither WebGPU nor WebAssembly can be set up; fallback would work. *)
Definition env_fallback_only : Env := env_of no_device no_device works.

(** Nothing can be set up. *)
Definition env_nothing : Env := env_of no_device no_device no_device.

(** WebGPU initializes and cannot load its model; the other two cannot
    be set up. *)
Definition env_gpu_alone_model_missing : Env :=
  env_of no_model no_device no_device.

(** The caller's option for ['constructor'] is an object with an
    [init] and a [load] of its own. *)
Definition env_option_is_runner : Env :=
  mkEnv no_device no_device no_device not_a_constructor
        (λ _, None) (λ _ _, None) (λ _ _ _ _, None).

Definition no_option : InitOption := mkInitOption None None None None.

Definition order_of (name : string) : InitOption :=
  mkInitOption (Some (OrderName name)) None None None.

Definition order_at (ref : loc) : InitOption :=
  mkInitOption (Some (OrderArray ref)) None None None.

Definition empty_world : World := mkWorld ∅ [] [].

Definition world_with (ref : loc) (xs : list string) : World :=
  mkWorld {[ ref := xs ]} [] [].

End WebDNN.

(** ** [scripts/resnet50.ts]: the crash tracker of the demo page *)

Module ResNet50.
Import WebDNN.

Definition KEY_WEBGPU_LAST_STATUS : string := "webgpu_last_status".
Definition KEY_FLAG_WEBGPU_DISABLED_ALERT : string := "flag_webgpu_disabled_alert".

Definition newline : string := String (Ascii.ascii_of_nat 10) EmptyString.

Definition WARN_CRASHED : string :=
  "This browser supports WebGPU. However, it was crashed at last execution with WebGPU. Therefore, WebDNN disabled WebGPU backend temporally.".

Definition ALERT_CRASHED : string :=
  "This browser supports WebGPU. However, it was crashed at last execution with WebGPU. "
  +:+ newline +:+ newline
  +:+ "Therefore, WebDNN disabled WebGPU backend temporally.".

(** What outlives a page: the origin's [localStorage], and what the user
    has been shown ([alert]) or the console has received. *)
Record Browser := mkBrowser {
  localStorage : gmap string string;
  alerts : list string;
  warnings : list string
}.

(** The fields of [App] the tracker uses.  [runner] holds the
    [backendName] of [this.runner], [None] while it is unset. *)
Record App := mkApp {
  runner : option string;
  lastStatus : string
}.

(** What a page load finds: the user agent test, the backend classes,
    and [WebDNN.init(order)] of the library build the page links
    against, which answers with the backend of [WebDNN.runner] or
    rejects ([None]). *)
Record Page := mkPage {
  FLAG_CHROME_ANDROID : bool;
  backends : Env;
  WebDNN_init : list string → option string
}.

(** [localStorage.getItem(key)]: [None] is [null]. *)
Definition getItem (key : string) (b : Browser) : option string :=
  localStorage b !! key.

Definition setItem (key value : string) (b : Browser) : Browser :=
  mkBrowser (<[key := value]> (localStorage b)) (alerts b) (warnings b).

Definition alert (msg : string) (b : Browser) : Browser :=
  mkBrowser (localStorage b) (alerts b ++ [msg]) (warnings b).

Definition console_warn (msg : string) (b : Browser) : Browser :=
  mkBrowser (localStorage b) (alerts b) (warnings b ++ [msg]).

(** Truthiness of a string-or-null: [null] and the empty string are falsy. *)
Definition truthy (v : option string) : bool :=
  match v with
  | Some s => negb (bool_decide (s = EmptyString))
  | None => false
  end.

(** [v || d] *)
Definition or_else (v : option string) (d : string) : string :=
  match v with
  | Some s => if truthy v then s else d
  | None => d
  end.

(** Lines 136-137: the in-place edits of the availability record. *)
Definition disable_webgpu (availability : BackendAvailability)
  : BackendAvailability :=
  {| status := <["webgpu" := false]> (status availability);
     defaultOrder :=
       JS.splice (JS.indexOf "webgpu" (defaultOrder availability)) 1
                 (defaultOrder availability) |}.

(** Lines 127-152 of [initialize]: the availability the session goes on
    with, [this.lastStatus] and the browser afterwards. *)
Definition check_last_status (p : Page) (this : App) (b : Browser)
  : BackendAvailability * App * Browser :=
  let availability := getBackendAvailability (backends p) in
  if decide (status availability !! "webgpu" = Some true) then
    let this := mkApp (runner this)
                      (or_else (getItem KEY_WEBGPU_LAST_STATUS b) "none") in
    if decide (lastStatus this = "running" ∨ lastStatus this = "crashed") then
      let availability := disable_webgpu availability in
      let b := setItem KEY_WEBGPU_LAST_STATUS "crashed" b in
      let b := console_warn WARN_CRASHED b in
      let b :=
        if negb (truthy (getItem KEY_FLAG_WEBGPU_DISABLED_ALERT b)) then
          setItem KEY_FLAG_WEBGPU_DISABLED_ALERT "1" (alert ALERT_CRASHED b)
        else b in
      (availability, this, b)
    else (availability, this, b)
  else (availability, this, b).

(** [App.initialize()] from line 120 on, once the DOM wiring before it
    has gone through.  A rejected [WebDNN.init] leaves [this.runner]
    unset. *)
Definition initialize (p : Page) (this : App) (b : Browser) : App * Browser :=
  if FLAG_CHROME_ANDROID p then (this, b)
  else
    let '(availability, this, b) := check_last_status p this b in
    match WebDNN_init p (defaultOrder availability) with
    | Some name => (mkApp (Some name) (lastStatus this), b)
    | None => (this, b)
    end.

(** [App.predict()], lines 248-251: up to the call of [run()]. *)
Definition predict_begin (this : App) (b : Browser) : App * Browser :=
  if decide (runner this = Some "webgpu" ∧ lastStatus this = "none") then
    (mkApp (runner this) "running", setItem KEY_WEBGPU_LAST_STATUS "running" b)
  else (this, b).

(** [App.predict()], lines 254-258: after [run()] has resolved. *)
Definition predict_end (this : App) (b : Browser) : App * Browser :=
  if decide (runner this = Some "webgpu" ∧ lastStatus this = "running") then
    (mkApp (runner this) "completed",
     setItem KEY_WEBGPU_LAST_STATUS "completed" b)
  else (this, b).

(** [App.predict()] as a whole; a rejected [run()] skips what follows
    the [await]. *)
Definition predict (run_resolves : bool) (this : App) (b : Browser)
  : App * Browser :=
  let '(this, b) := predict_begin this b in
  if run_resolves then predict_end this b else (this, b).

(** *** Sessions

    A page load starts from a fresh [App] (the class initialiser sets
    [lastStatus = ''] and leaves the runner unset) and runs
    [initialize]; the page may be torn down at any point, also while
    [run()] is pending, which is when the next [Launch] comes. *)
Inductive event :=
| Launch (p : Page)
| PredictBegin
| RunResolved
| RunRejected.

Record Installation := mkInstallation {
  browser : Browser;
  page : option App
}.

Definition on_page (f : App → Browser → App * Browser) (s : Installation)
  : Installation :=
  match page s with
  | Some this => let '(this, b) := f this (browser s) in mkInstallation b (Some this)
  | None => s
  end.

Definition step (e : event) (s : Installation) : Installation :=
  match e with
  | Launch p =>
      let '(this, b) := initialize p (mkApp None EmptyString) (browser s) in
      mkInstallation b (Some this)
  | PredictBegin => on_page predict_begin s
  | RunResolved => on_page predict_end s
  | RunRejected => s
  end.

Definition run_events (es : list event) (s : Installation) : Installation :=
  foldl (λ s e, step e s) s es.

(** The persisted crash status as the page reads it: an absent entry
    counts as ['none']. *)
Definition crash_status (b : Browser) : string :=
  or_else (getItem KEY_WEBGPU_LAST_STATUS b) "none".


(** The moves of the status the tracker is meant to make. *)
Inductive allowed : string → event → string → Prop :=
| allowed_arm : allowed "none" PredictBegin "running"
| allowed_complete : allowed "running" RunResolved "completed"
| allowed_crash p : allowed "running" (Launch p) "crashed".

(** The library never hands out a webgpu runner it was not asked for
    (it tries the backends of the order it is given). *)
Definition honours_order (e : event) : Prop :=
  match e with
  | Launch p => ∀ order, WebDNN_init p order = Some "webgpu" → "webgpu" ∈ order
  | _ => True
  end.

(** What ties the page to the store: while the page runs on a webgpu
    runner, [this.lastStatus] is the persisted status. *)
Definition coherent (s : Installation) : Prop :=
  match page s with
  | Some this =>
      runner this = Some "webgpu" → lastStatus this = crash_status (browser s)
  | None => True
  end.

(** The one-time alert has been shown on this installation. *)
Definition flag_set (b : Browser) : Prop :=
  truthy (getItem KEY_FLAG_WEBGPU_DISABLED_ALERT b) = true.

(** *** Sample pages *)

Definition env_all_work : Env := env_of works works works.

(** A desktop page whose [WebDNN.init] settles on the first backend of
    the order it is given. *)
Definition page_with_gpu : Page := mkPage false env_all_work head.

(** The same browser, with Chrome for Android as user agent. *)
Definition page_chrome_android : Page := mkPage true env_all_work head.

Definition fresh_install : Installation :=
  mkInstallation (mkBrowser ∅ [] []) None.

(** A store left behind by a page that died while [run()] was pending. *)
Definition died_running : Browser :=
  mkBrowser {[ KEY_WEBGPU_LAST_STATUS := "running" ]} [] [].

Definition ran_cleanly : Browser :=
  mkBrowser {[ KEY_WEBGPU_LAST_STATUS := "completed" ]} [] [].

End ResNet50.

(** ** [webdnn.ts]: what [load] asks of the backend classes *)

Module LoadLog.
Import JS WebDNN.



(** The calls of one turn of the loop that did not get to [load()]:
    none (the name is no constructor), the constructor alone, or the
    constructor and [init()]. *)
Inductive failed_attempt (opts : gmap string any) : list call → Prop :=
| attempt_no_class : failed_attempt opts []
| attempt_no_instance k : failed_attempt opts [CallNew k (opts !! k)]
| attempt_no_init k : failed_attempt opts [CallNew k (opts !! k); CallInit k].

(** The calls of a whole [load]: turns that did not get to [load()],
    then either nothing more ([None]) or the three calls on the backend
    whose [load()] was called. *)
Inductive load_log (directory : string) (initOption : InitOption)
    (opts : gmap string any) : option string → list call → Prop :=
| log_rejected : load_log directory initOption opts None []
| log_loaded k :
    load_log directory initOption opts (Some k)
      [CallNew k (opts !! k); CallInit k;
       CallLoad k directory (default false (ignoreCache initOption))
                (progressCallback initOption)]
| log_failed on a l :
    failed_attempt opts a →
    load_log directory initOption opts on l →
    load_log directory initOption opts on (a ++ l).

Definition is_load (c : call) : bool :=
  match c with CallLoad _ _ _ _ => true | _ => false end.

End LoadLog.

(** ** [resnet50.ts]: pages and what they run on *)

Module Sessions.
Import WebDNN ResNet50.

(** A page load in a browser whose [getBackendAvailability] does not
    report webgpu. *)
Definition without_webgpu (e : event) : Prop :=
  match e with
  | Launch p => status (getBackendAvailability (backends p)) !! "webgpu" ≠ Some true
  | _ => True
  end.

(** The page, if there is one, does not run on webgpu. *)
Definition off_webgpu (s : Installation) : Prop :=
  match page s with
  | Some this => runner this ≠ Some "webgpu"
  | None => True
  end.

(** *** More sample pages *)

(** A desktop page in a browser that has no WebGPU. *)
Definition page_without_gpu : Page := mkPage false env_fallback_only head.

(** A store on which a crash has been recorded. *)
Definition marked_crashed : Browser :=
  mkBrowser {[ KEY_WEBGPU_LAST_STATUS := "crashed" ]} [] [].

(** A page that runs on webgpu, on an installation that has stored
    nothing yet. *)
Definition on_webgpu : Installation :=
  mkInstallation (mkBrowser ∅ [] []) (Some (mkApp (Some "webgpu") "none")).

End Sessions.

(** ** [resnet50.ts]: what the page shows *)

Module DemoPage.
Import ResNet50.

Inductive State := INITIALIZING | NO_IMAGE | STAND_BY | RUNNING | ERROR.

(** [#runButton], as far as the page sets it. *)
Record Button := mkButton {
  textContent : string;
  disabled : bool
}.

(** The fields of [App] behind [setMessage] and [setState].  [state] is
    [None] until the first [setState]; [messageView] holds the text of
    [#message] and [runButton] the button, each [None] until
    [initialize] has found the element. *)
Record View := mkView {
  state : option State;
  messageView : option string;
  runButton : option Button
}.

(** How a method ended: normally, or by throwing (the name of what it
    threw). *)
Inductive completion :=
| Normal
| Threw (what : string).

Definition setMessage (message : string) (v : View) : View :=
  match messageView v with
  | Some _ => mkView (state v) (Some message) (runButton v)
  | None => v
  end.

(** [if (this.runButton) { textContent = text; disabled = d }] *)
Definition setRunButton (text : string) (d : bool) (v : View) : View :=
  match runButton v with
  | Some _ => mkView (state v) (messageView v) (Some (mkButton text d))
  | None => v
  end.

(** [setState(state)].  [runner] is the [backendName] of [this.runner],
    [None] while [this.runner] is unset; the message of [STAND_BY] reads
    it before anything is shown. *)
Definition setState (runner : option string) (s : State) (v : View)
  : View * completion :=
  let v := mkView (Some s) (messageView v) (runButton v) in
  match s with
  | INITIALIZING =>
      (setRunButton "Initializing..." true (setMessage "Initializing..." v),
       Normal)
  | NO_IMAGE =>
      (setRunButton "Run" true
         (setMessage ("Select an image, and click " +:+ JS.dquote +:+ "Run"
                      +:+ JS.dquote +:+ " button.") v),
       Normal)
  | STAND_BY =>
      match runner with
      | Some backendName =>
          (setRunButton "Run" false
             (setMessage ("Ready(backend: " +:+ backendName +:+ ")") v),
           Normal)
      | None => (v, Threw "TypeError")
      end
  | RUNNING =>
      (setRunButton "Running..." true (setMessage "Running..." v), Normal)
  | ERROR => (setRunButton "Error" true (setMessage "Error" v), Normal)
  end.

(** *** [loadRandomImage] *)

Definition NUM_RANDOM_IMAGE : nat := 6.

(** The new [randomImageIndex] and the URL handed to
    [picker.loadByUrl]. *)
Definition loadRandomImage (randomImageIndex : nat) : nat * string :=
  let i := ((randomImageIndex + 1) mod NUM_RANDOM_IMAGE)%nat in
  (i, "./assets/images/" +:+ pretty i +:+ ".png").

(** The indices of [n] calls in a row, oldest first. *)
Fixpoint loaded_images (n : nat) (randomImageIndex : nat) : list nat :=
  match n with
  | O => []
  | S n' =>
      let i := (loadRandomImage randomImageIndex).1 in
      i :: loaded_images n' i
  end.

(** *** [setInputImageData] *)

(** The canvas: its size and the RGBA bytes that
    [getImageData(0, 0, width, height)] hands back, which throws an
    IndexSizeError when either side is 0. *)
Record Canvas := mkCanvas {
  width : nat;
  height : nat;
  pixelData : list Z
}.

Section Floats.
(** Numbers in a [Float32Array], and [pixel - mean] as stored there
    ([None] is a read past the end of [pixelData], [undefined]).  The
    arithmetic itself is left to the engine. *)
Context {F : Type} (f32_sub : option Z → Q → F).

(** The body of the two loops, for the pixel at [(x, y)].  A write past
    the end of a typed array does nothing. *)
Definition set_pixel (w : nat) (pixelData : list Z) (inputView : list F)
    (y x : nat) : list F :=
  let p := (y * w + x)%nat in
  let inputView :=
    <[(p * 3)%nat := f32_sub (pixelData !! (p * 4 + 2)%nat) (103939 # 1000)]>
      inputView in
  let inputView :=
    <[(p * 3 + 1)%nat := f32_sub (pixelData !! (p * 4 + 1)%nat) (116779 # 1000)]>
      inputView in
  <[(p * 3 + 2)%nat := f32_sub (pixelData !! (p * 4)%nat) (12368 # 100)]>
    inputView.

Definition fill_input (w h : nat) (pixelData : list Z) (inputView : list F)
  : list F :=
  foldl (λ v y, foldl (λ v x, set_pixel w pixelData v y x) v (seq 0 w))
        inputView (seq 0 h).

(** [inputView] is [None] while [this.inputView] is unset; the first
    write then throws. *)
Definition setInputImageData (canvas : Canvas) (inputView : option (list F))
  : option (list F) * completion :=
  if decide (width canvas = 0%nat ∨ height canvas = 0%nat) then
    (inputView, Threw "IndexSizeError")
  else
    match inputView with
    | Some v =>
        (Some (fill_input (width canvas) (height canvas) (pixelData canvas) v),
         Normal)
    | None => (None, Threw "TypeError")
    end.

(** What [inputView] holds at index [i] once the pixel it belongs to has
    been written. *)
Definition input_of_pixel (pixelData : list Z) (i : nat) : F :=
  match (i mod 3)%nat with
  | 0%nat => f32_sub (pixelData !! (i / 3 * 4 + 2)%nat) (103939 # 1000)
  | 1%nat => f32_sub (pixelData !! (i / 3 * 4 + 1)%nat) (116779 # 1000)
  | _ => f32_sub (pixelData !! (i / 3 * 4)%nat) (12368 # 100)
  end.

(** [inputView] with the entries of the first [n] pixels written. *)
Definition filled_upto (n : nat) (pixelData : list Z) (inputView : list F)
  : list F :=
  imap (λ i x, if decide (i < 3 * n)%nat then input_of_pixel pixelData i else x)
       inputView.

(** *** [predict] as the page sees it *)

Record Demo := mkDemo {
  app : App;
  view : View;
  inputView : option (list F)
}.

(** [App.predict()].  [run_outcome] and [show_outcome] say whether
    [run()] resolved and whether reading the output and filling in the
    result list (lines 260-275, which work on views and elements
    outside this model) went through: [None] if so, else what was
    thrown.  [time] is [computationTime.toFixed(2)]. *)
Definition predict_page (run_outcome show_outcome : option string)
    (time : string) (canvas : Canvas) (d : Demo) (b : Browser)
  : Demo * Browser * completion :=
  let v := (setState (runner (app d)) RUNNING (view d)).1 in
  match setInputImageData canvas (inputView d) with
  | (iv, Threw e) => (mkDemo (app d) v iv, b, Threw e)
  | (iv, Normal) =>
      match runner (app d) with
      | None => (mkDemo (app d) v iv, b, Threw "TypeError")
      | Some _ =>
          let '(this, b) := predict_begin (app d) b in
          match run_outcome with
          | Some e => (mkDemo this v iv, b, Threw e)
          | None =>
              let '(this, b) := predict_end this b in
              match show_outcome with
              | Some e => (mkDemo this v iv, b, Threw e)
              | None =>
                  let '(v, c) := setState (runner this) STAND_BY v in
                  match c with
                  | Threw e => (mkDemo this v iv, b, Threw e)
                  | Normal =>
                      (mkDemo this
                         (setMessage ("Computation Time: " +:+ time +:+ " [ms]") v)
                         iv,
                       b, Normal)
                  end
              end
          end
      end
  end.

End Floats.

(** A view after [initialize] has found [#message] and [#runButton]. *)
Definition wired (v : View) : Prop :=
  is_Some (messageView v) ∧ is_Some (runButton v).

(** *** Samples *)

(** Arithmetic without rounding, for a sample. *)
Definition exact_sub (pixel : option Z) (mean : Q) : option Q :=
  (λ z, inject_Z z - mean)%Q <$> pixel.

(** One opaque pixel, orange. *)
Definition one_pixel : Canvas := mkCanvas 1 1 [255; 128; 0; 255].

(** The page after an image has been picked. *)
Definition ready_view : View :=
  mkView (Some STAND_BY) (Some "Ready(backend: webgpu)")
         (Some (mkButton "Run" false)).

Definition ready_demo : @Demo (option Q) :=
  mkDemo (mkApp (Some "webgpu") "none") ready_view (Some [None; None; None]).

End DemoPage.

(** ** Regular expressions, as far as [resnet50.ts] uses them *)

Module RegExp.

(** A string is matched as its sequence of UTF-16 code units, which is
    how a pattern without the [u] flag sees it. *)
Definition code_unit := N.

(** The one group a pattern of the page has is capture 1: [None] while
    it has not taken part, else the text it matched. *)
Definition captures := option (list code_unit).
Definition continuation := list code_unit → captures → option captures.

(** A matcher is run on the rest of the input with the captures so far
    and what is to follow; [None] sends the caller back to its next
    choice. *)
Definition matcher :=
  list code_unit → captures → continuation → option captures.

(** One code unit of a class. *)
Definition char_class (P : code_unit → bool) : matcher := λ s c k,
  match s with
  | a :: s' => if P a then k s' c else None
  | [] => None
  end.

(** [m1 m2] *)
Definition then_ (m1 m2 : matcher) : matcher := λ s c k,
  m1 s c (λ s' c', m2 s' c' k).

(** Greedy [*] on a class: one more code unit first, what follows only
    when that has failed. *)
Fixpoint star (P : code_unit → bool) (s : list code_unit) (c : captures)
    (k : continuation) : option captures :=
  match s with
  | a :: s' =>
      if P a then
        match star P s' c k with
        | Some r => Some r
        | None => k s c
        end
      else k s c
  | [] => k [] c
  end.

(** Greedy [+] on a class. *)
Definition plus (P : code_unit → bool) : matcher :=
  then_ (char_class P) (star P).

(** Greedy [?] on a matcher that cannot match the empty string. *)
Definition optional (m : matcher) : matcher := λ s c k,
  match m s c k with
  | Some r => Some r
  | None => k s c
  end.

(** [( m )] as capture 1. *)
Definition group (m : matcher) : matcher := λ s c k,
  m s c (λ s' _, k s' (Some (take (length s - length s') s))).

(** [$] without the [m] flag. *)
Definition end_of_input : matcher := λ s c k,
  match s with
  | [] => k [] c
  | _ :: _ => None
  end.

(** A run of literal code units. *)
Fixpoint literal (t : list code_unit) : matcher :=
  match t with
  | [] => λ s c k, k s c
  | a :: t' => then_ (char_class (λ b, bool_decide (b = a))) (literal t')
  end.

(** The pattern tried at one position. *)
Definition match_here (m : matcher) (s : list code_unit) : option captures :=
  m s None (λ _ c, Some c).

(** [exec]: the match at the leftmost position that has one, the end of
    the input being the last position tried. *)
Fixpoint exec (m : matcher) (s : list code_unit) : option captures :=
  match match_here m s with
  | Some r => Some r
  | None =>
      match s with
      | _ :: s' => exec m s'
      | [] => None
      end
  end.

(** The line terminators: line feed, carriage return, line separator
    (U+2028) and paragraph separator (U+2029). *)
Definition line_terminators : list code_unit := [10; 13; 8232; 8233]%N.

(** [.] without the [s] flag: any code unit but a line terminator. *)
Definition dot (a : code_unit) : bool :=
  negb (bool_decide (a ∈ line_terminators)).

(** The code units of a text written in ASCII. *)
Definition units (s : string) : list code_unit :=
  N_of_ascii <$> String.list_ascii_of_string s.

Definition slash : code_unit := N_of_ascii "/".
Definition question : code_unit := N_of_ascii "?".

End RegExp.

(** ** [resnet50.ts]: [window.onload] *)

Module OnLoad.
Import RegExp.

(** The pattern of the user agent test: [Android], then any run of
    [.] as capture 1, then [Chrome]. *)
Definition android_chrome : matcher :=
  then_ (literal (units "Android"))
        (then_ (group (star dot)) (literal (units "Chrome"))).

(** [FLAG_CHROME_ANDROID], the pattern tested on [navigator.userAgent]. *)
Definition chrome_android (userAgent : list code_unit) : bool :=
  bool_decide (is_Some (exec android_chrome userAgent)).

Definition not_slash (a : code_unit) : bool := negb (bool_decide (a = slash)).
Definition question_mark (a : code_unit) : bool := bool_decide (a = question).

(** The pattern of the delegate: one or more code units other than a
    slash as capture 1, then optionally a question mark and any run of
    [.], then the end of the input. *)
Definition file_name : matcher :=
  then_ (group (plus not_slash))
        (then_ (optional (then_ (char_class question_mark) (star dot)))
               end_of_input).

Definition MODEL_HOST : list code_unit :=
  units "https://mil-tokyo.github.io/webdnn-data/models/resnet50/".

(** The delegate given to [WebDNN.registerTransformDelegate]. *)
Definition transform (url : list code_unit) : list code_unit :=
  match exec file_name url with
  | Some ma1 =>
      MODEL_HOST ++ default (units "undefined") ma1 ++ units "?raw=true&v=2"
  | None => url
  end.

(** A URL up to and with a last slash, or nothing, with no query in it. *)
Definition directory (dir : list code_unit) : Prop :=
  (dir = [] ∨ ∃ d, dir = d ++ [slash]) ∧ question ∉ dir.

(** A file name: not empty, no slash. *)
Definition file (name : list code_unit) : Prop :=
  name ≠ [] ∧ slash ∉ name.

End OnLoad.

(** * Properties of [webdnn.ts] *)

Module WebDNNFacts.
Import JS WebDNN.

Ltac run_monad :=
  unfold mbind, M_bind, mret, M_ret, throw, try_catch, console_warn,
    log_call, get_journal, array_length, array_shift, array_slice,
    array_concat, array_indexOf, new_array; simpl.

Lemma fresh_not_allocated (h : gmap loc (list string)) :
  h !! fresh (dom h) = None.
Proof. apply not_elem_of_dom, is_fresh. Qed.

Lemma contents_insert_eq a xs h c j :
  contents a (mkWorld (<[a := xs]> h) c j) = xs.
Proof. unfold contents; simpl. by rewrite lookup_total_insert_eq. Qed.

Lemma contents_insert_ne a b xs h c j :
  a ≠ b → contents b (mkWorld (<[a := xs]> h) c j) = contents b (mkWorld h c j).
Proof. intros. unfold contents; simpl. by rewrite lookup_total_insert_ne. Qed.

Section WithEnv.
Context (env : Env).

Lemma registry_lookup k :
  descriptorRunners env !! k =
    if decide (k = "webgpu") then Some (DescriptorRunnerWebGPU env)
    else if decide (k = "webassembly") then Some (DescriptorRunnerWebassembly env)
    else if decide (k = "fallback") then Some (DescriptorRunnerFallback env)
    else None.
Proof.
  unfold descriptorRunners.
  repeat case_decide; subst; simplify_map_eq; done.
Qed.

Lemma registry_own_keys k :
  is_Some (descriptorRunners env !! k) ↔ BackendName k.
Proof.
  rewrite registry_lookup. unfold BackendName.
  repeat case_decide; subst; split; try (intros _; by eauto).
  - intros [? ?]; done.
  - intros [?|[?|?]]; done.
Qed.

Lemma js_in_registry k :
  js_in k (descriptorRunners env) = true ↔
  BackendName k ∨ k ∈ Object_prototype_keys.
Proof.
  unfold js_in. rewrite orb_true_iff, !bool_decide_eq_true.
  by rewrite registry_own_keys.
Qed.

(** Where [new] finds a constructor. *)
Lemma constructor_at_own k cls :
  descriptorRunners env !! k = Some cls → constructor_at env k = Some cls.
Proof. intros Hk. unfold constructor_at. by rewrite Hk. Qed.

Lemma constructor_at_name k cls :
  constructor_at env k = Some cls →
  (BackendName k ∧ descriptorRunners env !! k = Some cls)
  ∨ (k = "constructor" ∧ descriptorRunners env !! k = None
     ∧ cls = Object_class env).
Proof.
  unfold constructor_at.
  destruct (descriptorRunners env !! k) as [c|] eqn:Hk.
  - intros [= ->]. left. split; [|done]. apply registry_own_keys. eauto.
  - case_decide; [|done]. intros [= <-]. by right.
Qed.

Lemma constructor_at_in k cls :
  constructor_at env k = Some cls → js_in k (descriptorRunners env) = true.
Proof.
  intros Hc. apply js_in_registry.
  destruct (constructor_at_name k cls Hc) as [[? _]|[-> _]]; [by left|].
  right. apply (bool_decide_unpack _). by vm_compute.
Qed.

(** The handlers. *)
Lemma initBackend_catch_outcome k f w :
  initBackend_catch k (Foreign f) w =
    match shown f with
    | Gives s =>
        (Return None,
         mkWorld (heap w)
           (console w ++ ["Failed to initialize " +:+ k +:+ " backend: " +:+ s])
           (journal w))
    | Throws g => (Throw (Foreign g), w)
    end.
Proof.
  unfold initBackend_catch, to_string, evaluated. by destruct (shown f).
Qed.

Lemma load_catch_outcome k r f w :
  load_catch k r (Foreign f) w =
    match message f with
    | Gives m =>
        (Return r,
         mkWorld (heap w)
           (console w ++ ["Model loading failed for " +:+ k
                          +:+ " backend. Trying next backend: " +:+ m])
           (journal w))
    | Throws g => (Throw (Foreign g), w)
    end.
Proof.
  unfold load_catch, message_of, evaluated. by destruct (message f).
Qed.

(** What [initBackend] can do, case by case. *)
Lemma initBackend_unknown k o w :
  js_in k (descriptorRunners env) = false →
  initBackend env k o w =
    (Throw (unknown_backend k), w).
Proof. intros Hk. unfold initBackend. by rewrite Hk. Qed.

Lemma initBackend_inherited k o w :
  js_in k (descriptorRunners env) = true →
  constructor_at env k = None →
  initBackend env k o w = initBackend_catch k (Foreign (TypeError env k)) w.
Proof.
  intros Hk Hn. unfold initBackend, new_runner. rewrite Hk, Hn. by run_monad.
Qed.

Lemma initBackend_construct_fails k cls o w f :
  constructor_at env k = Some cls →
  construct cls (journal w) o = Some f →
  initBackend env k o w =
    initBackend_catch k (Foreign f)
      (mkWorld (heap w) (console w) (journal w ++ [CallNew k o])).
Proof.
  intros Hk Hf. pose proof (constructor_at_in k cls Hk) as Hin.
  unfold initBackend, new_runner. rewrite Hin, Hk. run_monad. by rewrite Hf.
Qed.

Lemma initBackend_init_fails k cls o w f :
  constructor_at env k = Some cls →
  construct cls (journal w) o = None →
  init cls (journal w ++ [CallNew k o]) = Some f →
  initBackend env k o w =
    initBackend_catch k (Foreign f)
      (mkWorld (heap w) (console w) (journal w ++ [CallNew k o; CallInit k])).
Proof.
  intros Hk Hc Hf. pose proof (constructor_at_in k cls Hk) as Hin.
  unfold initBackend, new_runner, runner_init. rewrite Hin, Hk. run_monad.
  rewrite Hc. simpl. rewrite Hf. simpl. by rewrite <- app_assoc.
Qed.

Lemma initBackend_succeeds k cls o w :
  constructor_at env k = Some cls →
  construct cls (journal w) o = None →
  init cls (journal w ++ [CallNew k o]) = None →
  initBackend env k o w =
    (Return (Some (mkRunner cls k false true false)),
     mkWorld (heap w) (console w) (journal w ++ [CallNew k o; CallInit k])).
Proof.
  intros Hk Hc Hf. pose proof (constructor_at_in k cls Hk) as Hin.
  unfold initBackend, new_runner, runner_init. rewrite Hin, Hk. run_monad.
  rewrite Hc. simpl. rewrite Hf. simpl. by rewrite <- app_assoc.
Qed.

(** Every outcome of [initBackend] at once.  The heap is not touched,
    console and journal only grow, and every call is made on the
    backend that was asked for.  An exception that leaves is the
    unknown-backend error or what the handler's string conversion
    threw. *)
Lemma initBackend_outcome k o w :
  ∃ c j,
    (initBackend env k o w).2 = mkWorld (heap w) (console w ++ c) (journal w ++ j) ∧
    (j = [] ∨ j = [CallNew k o] ∨ j = [CallNew k o; CallInit k]) ∧
    match (initBackend env k o w).1 with
    | Return (Some r) =>
        constructor_at env k = Some (klass r) ∧ backendName r = k ∧
        initialized r = true ∧ loaded r = false ∧ c = [] ∧
        j = [CallNew k o; CallInit k]
    | Return None => js_in k (descriptorRunners env) = true ∧ ∃ msg, c = [msg]
    | Throw ex =>
        c = [] ∧
        ((js_in k (descriptorRunners env) = false ∧ j = [] ∧
          ex = unknown_backend k)
         ∨ (js_in k (descriptorRunners env) = true ∧ ∃ g, ex = Foreign g))
    | OutOfFuel => False
    end.
Proof.
  destruct (js_in k (descriptorRunners env)) eqn:Hin.
  2:{ rewrite initBackend_unknown by done. exists [], []. simpl.
      rewrite !app_nil_r. split; [by destruct w|]. split; [by left|]. eauto. }
  destruct (constructor_at env k) as [cls|] eqn:Hk.
  2:{ rewrite initBackend_inherited, initBackend_catch_outcome by done.
      destruct (shown (TypeError env k)) as [s|g]; simpl.
      - eexists [_], []. rewrite app_nil_r. repeat split; eauto.
      - exists [], []. rewrite !app_nil_r. split; [by destruct w|].
        split; [by left|]. split; [done|]. right. eauto. }
  destruct (construct cls (journal w) o) as [f|] eqn:Hc.
  { erewrite initBackend_construct_fails, initBackend_catch_outcome by done.
    destruct (shown f) as [s|g]; simpl.
    - eexists [_], [_]. split; [reflexivity|]. split; [by right; left|].
      eauto.
    - eexists [], [_]. rewrite app_nil_r. split; [reflexivity|].
      split; [by right; left|]. split; [done|]. right. eauto. }
  destruct (init cls (journal w ++ [CallNew k o])) as [f|] eqn:Hi.
  { erewrite initBackend_init_fails, initBackend_catch_outcome by done.
    destruct (shown f) as [s|g]; simpl.
    - eexists [_], [_; _]. split; [reflexivity|].
      split; [by right; right|]. eauto.
    - eexists [], [_; _]. rewrite app_nil_r. split; [reflexivity|].
      split; [by right; right|]. split; [done|]. right. eauto. }
  erewrite initBackend_succeeds by done. eexists [], _. simpl.
  split; [by rewrite app_nil_r|]. split; [by right; right|]. done.
Qed.

Lemma initBackend_calls_on k o j :
  j = [] ∨ j = [CallNew k o] ∨ j = [CallNew k o; CallInit k] →
  Forall (λ x, backend_of x = k) j.
Proof. intros [-> | [-> | ->]]; by repeat constructor. Qed.

Lemma initBackend_heap k o w : heap (initBackend env k o w).2 = heap w.
Proof.
  destruct (initBackend_outcome k o w) as (c & j & -> & _). done.
Qed.

(** [initBackend] reads the console and the journal only. *)
Lemma initBackend_frame k o w :
  initBackend env k o w =
    let out := initBackend env k o (mkWorld ∅ (console w) (journal w)) in
    (out.1, mkWorld (heap w) (console out.2) (journal out.2)).
Proof.
  destruct (js_in k (descriptorRunners env)) eqn:Hin.
  2:{ rewrite !initBackend_unknown by done. by destruct w. }
  destruct (constructor_at env k) as [cls|] eqn:Hk.
  2:{ rewrite !initBackend_inherited, !initBackend_catch_outcome by done.
      destruct (shown (TypeError env k)); [done|by destruct w]. }
  destruct (construct cls (journal w) o) as [f|] eqn:Hc.
  { rewrite (initBackend_construct_fails k cls o w f) by done.
    rewrite (initBackend_construct_fails k cls o (mkWorld ∅ _ _) f) by done.
    rewrite !initBackend_catch_outcome. by destruct (shown f). }
  destruct (init cls (journal w ++ [CallNew k o])) as [f|] eqn:Hi.
  { rewrite (initBackend_init_fails k cls o w f) by done.
    rewrite (initBackend_init_fails k cls o (mkWorld ∅ _ _) f) by done.
    rewrite !initBackend_catch_outcome. by destruct (shown f). }
  rewrite (initBackend_succeeds k cls o w) by done.
  by rewrite (initBackend_succeeds k cls o (mkWorld ∅ _ _)) by done.
Qed.

(** Line 195: the assignment goes through on every runner of a
    registered backend. *)
Lemma assign_ignoreCache_registered r b w :
  is_Some (descriptorRunners env !! backendName r) →
  assign_ignoreCache env r b w = (Return (set_ignoreCache r b), w).
Proof. intros [cls Hk]. unfold assign_ignoreCache. by rewrite Hk. Qed.

Lemma assign_ignoreCache_outcome r b w :
  (assign_ignoreCache env r b w = (Return (set_ignoreCache r b), w))
  ∨ (descriptorRunners env !! backendName r = None
     ∧ ∃ g, assign_ignoreCache env r b w = (Throw (Foreign g), w)).
Proof.
  unfold assign_ignoreCache.
  destruct (descriptorRunners env !! backendName r); [by left|].
  run_monad. destruct (Object_assign env (journal w) b) as [g|]; [|by left].
  right. eauto.
Qed.

(** [runner.load] and its handler, once the flag is set. *)
Lemma load_attempt dir opt k r w :
  try_catch (runner_load r dir (progressCallback opt)) (load_catch k r) w =
    let w1 := mkWorld (heap w) (console w)
                (journal w ++ [CallLoad (backendName r) dir
                                 (runner_ignoreCache r) (progressCallback opt)]) in
    match load_model (klass r) (journal w) dir (runner_ignoreCache r)
                     (progressCallback opt) with
    | None =>
        (Return (mkRunner (klass r) (backendName r) (runner_ignoreCache r)
                          (initialized r) true), w1)
    | Some f => load_catch k r (Foreign f) w1
    end.
Proof.
  unfold runner_load. run_monad.
  by destruct (load_model _ _ _ _ _) as [f|].
Qed.

Lemma load_into_unfold dir opt k r w :
  load_into env dir opt k r w =
    match assign_ignoreCache env r (default false (ignoreCache opt)) w with
    | (Return r1, w1) =>
        try_catch (runner_load r1 dir (progressCallback opt)) (load_catch k r1) w1
    | (Throw ex, w1) => (Throw ex, w1)
    | (OutOfFuel, w1) => (OutOfFuel, w1)
    end.
Proof. reflexivity. Qed.

(** Every outcome of [load_into]: the runner comes back, loaded or
    not, or an exception leaves that the assignment or the handler's
    reading of [message] threw. *)
Lemma load_into_outcome dir opt k r w :
  ∃ c j,
    (load_into env dir opt k r w).2
      = mkWorld (heap w) (console w ++ c) (journal w ++ j) ∧
    (j = [] ∨ j = [CallLoad (backendName r) dir
                     (default false (ignoreCache opt)) (progressCallback opt)]) ∧
    match (load_into env dir opt k r w).1 with
    | Return r' =>
        klass r' = klass r ∧ backendName r' = backendName r ∧
        runner_ignoreCache r' = default false (ignoreCache opt) ∧
        initialized r' = initialized r ∧
        j = [CallLoad (backendName r) dir
               (default false (ignoreCache opt)) (progressCallback opt)] ∧
        ((loaded r' = true ∧ c = [] ∧
          load_model (klass r) (journal w) dir
            (default false (ignoreCache opt)) (progressCallback opt) = None)
         ∨ (loaded r' = loaded r ∧
            ∃ f m,
              load_model (klass r) (journal w) dir
                (default false (ignoreCache opt)) (progressCallback opt)
              = Some f ∧ message f = Gives m ∧
              c = ["Model loading failed for " +:+ k
                   +:+ " backend. Trying next backend: " +:+ m]))
    | Throw ex => c = [] ∧ ∃ g, ex = Foreign g
    | OutOfFuel => False
    end.
Proof.
  rewrite load_into_unfold.
  destruct (assign_ignoreCache_outcome r (default false (ignoreCache opt)) w)
    as [->|(_ & g & ->)].
  2:{ exists [], []. simpl. rewrite !app_nil_r. split; [by destruct w|].
      split; [by left|]. split; [done|]. by exists g. }
  rewrite load_attempt. cbn [set_ignoreCache klass backendName
    runner_ignoreCache initialized loaded].
  destruct (load_model _ _ _ _ _) as [f|] eqn:Hl.
  - rewrite load_catch_outcome. destruct (message f) as [m|g] eqn:Hm; simpl.
    + eexists [_], [_]. split; [reflexivity|]. split; [by right|].
      repeat split; try done. right. split; [done|]. eauto.
    + eexists [], [_]. rewrite app_nil_r. split; [reflexivity|].
      split; [by right|]. eauto.
  - eexists [], [_]. simpl. rewrite app_nil_r. split; [reflexivity|].
    split; [by right|]. repeat split; try done. by left.
Qed.

Lemma load_into_heap dir opt k r w :
  heap (load_into env dir opt k r w).2 = heap w.
Proof.
  destruct (load_into_outcome dir opt k r w) as (c & j & -> & _). done.
Qed.

(** [load_into] reads the console and the journal only. *)
Lemma load_into_frame dir opt k r w :
  load_into env dir opt k r w =
    let out := load_into env dir opt k r (mkWorld ∅ (console w) (journal w)) in
    (out.1, mkWorld (heap w) (console out.2) (journal out.2)).
Proof.
  rewrite !load_into_unfold. unfold assign_ignoreCache.
  destruct (descriptorRunners env !! backendName r).
  - run_monad. unfold runner_load. run_monad.
    destruct (load_model _ _ _ _ _) as [f|]; [|done].
    rewrite !load_catch_outcome. by destruct (message f).
  - run_monad. destruct (Object_assign env (journal w) _); [by destruct w|].
    unfold runner_load. run_monad.
    destruct (load_model _ _ _ _ _) as [f|]; [|done].
    rewrite !load_catch_outcome. by destruct (message f).
Qed.

(** One turn of the loop. *)
Lemma load_loop_nil fuel dir opt opts a w :
  contents a w = [] →
  load_loop env (S fuel) dir opt opts a w =
    (Throw (Error "No backend is available"), w).
Proof. intros Ha. simpl. run_monad. by rewrite Ha. Qed.

Lemma load_loop_cons fuel dir opt opts a w k rest :
  contents a w = k :: rest →
  load_loop env (S fuel) dir opt opts a w =
    let w1 := mkWorld (<[a := rest]> (heap w)) (console w) (journal w) in
    match initBackend env k (opts !! k) w1 with
    | (Return None, w2) => load_loop env fuel dir opt opts a w2
    | (Return (Some runner), w2) => load_into env dir opt k runner w2
    | (Throw ex, w2) => (Throw ex, w2)
    | (OutOfFuel, w2) => (OutOfFuel, w2)
    end.
Proof.
  intros Ha. simpl. run_monad. rewrite Ha. simpl. rewrite Ha. simpl.
  destruct (initBackend env k (opts !! k) _) as [[[r|]|ex|] w2]; done.
Qed.

Local Arguments load_loop : simpl never.

(** Lines 186-191: from the [slice] to the head of the loop, started
    on an array [a0]. *)
Lemma load_from_slice dir opt a0 w0 :
  ∃ a1 w1,
    (backendOrder1 ← array_slice a0;
     i ← array_indexOf backendOrder1 "fallback";
     (if decide (i = -1)
      then (_ ← array_concat backendOrder1 ["fallback"]; mret ())
      else mret ());;
     n ← array_length backendOrder1;
     load_loop env (S n) dir opt (default ∅ (backendOptions opt))
               backendOrder1) w0
    = load_loop env (S (length (contents a0 w0))) dir opt
                (default ∅ (backendOptions opt)) a1 w1
    ∧ heap w0 !! a1 = None
    ∧ contents a1 w1 = contents a0 w0
    ∧ console w1 = console w0 ∧ journal w1 = journal w0
    ∧ (∀ l, is_Some (heap w0 !! l) → heap w1 !! l = heap w0 !! l).
Proof.
  set (xs := contents a0 w0).
  set (a1 := fresh (dom (heap w0))).
  assert (heap w0 !! a1 = None) as Ha1 by apply fresh_not_allocated.
  set (w1 := mkWorld (<[a1 := xs]> (heap w0)) (console w0) (journal w0)).
  assert (contents a1 w1 = xs) as Hc1 by apply contents_insert_eq.
  destruct (decide (indexOf "fallback" xs = -1)) as [Hi|Hi].
  - set (a2 := fresh (dom (heap w1))).
    assert (heap w1 !! a2 = None) as Ha2 by apply fresh_not_allocated.
    assert (a2 ≠ a1) as Hne.
    { intros ->. unfold w1 in Ha2; simpl in Ha2.
      by rewrite lookup_insert_eq in Ha2. }
    exists a1, (mkWorld (<[a2 := (xs ++ ["fallback"])%list]> (heap w1))
                        (console w1) (journal w1)).
    split; [|split; [done|split; [|split; [done|split; [done|]]]]].
    + run_monad. fold xs a1 w1. rewrite Hc1. rewrite decide_True by done.
      fold a2. simpl. rewrite contents_insert_ne by done.
      replace (mkWorld (heap w1) (console w0) (journal w0)) with w1 by done.
      unfold w1. by rewrite !contents_insert_eq.
    + rewrite contents_insert_ne by done.
      replace (mkWorld (heap w1) (console w1) (journal w1)) with w1 by done.
      done.
    + intros l [ys Hl]. simpl.
      rewrite !lookup_insert_ne; [done|congruence|].
      intros ->. unfold w1 in Ha2; simpl in Ha2.
      rewrite lookup_insert_ne in Ha2 by (intros ->; congruence). congruence.
  - exists a1, w1.
    split; [|split; [done|split; [done|split; [done|split; [done|]]]]].
    + run_monad. fold xs a1 w1. rewrite Hc1. rewrite decide_False by done.
      simpl. by rewrite Hc1.
    + intros l [ys Hl]. simpl. rewrite lookup_insert_ne; [done|congruence].
Qed.

(** [load] is its loop, run on a fresh array that holds the requested
    order; nothing that was on the heap before has changed by then. *)
Lemma load_unfold dir opt w :
  ∃ a w1,
    load env dir opt w =
      load_loop env (S (length (requested_order opt w))) dir opt
                (default ∅ (backendOptions opt)) a w1
    ∧ heap w !! a = None
    ∧ contents a w1 = requested_order opt w
    ∧ console w1 = console w ∧ journal w1 = journal w
    ∧ (∀ l, is_Some (heap w !! l) → heap w1 !! l = heap w !! l).
Proof.
  assert (∀ xs,
    let a0 := fresh (dom (heap w)) in
    let w0 := mkWorld (<[a0 := xs]> (heap w)) (console w) (journal w) in
    contents a0 w0 = xs ∧ console w0 = console w ∧ journal w0 = journal w ∧
    (∀ l, is_Some (heap w !! l) →
          is_Some (heap w0 !! l) ∧ heap w0 !! l = heap w !! l) ∧
    (∀ l, heap w0 !! l = None → heap w !! l = None)) as Hlit.
  { intros xs a0 w0. split; [apply contents_insert_eq|].
    do 2 (split; [done|]). split.
    - intros l Hl. assert (a0 ≠ l) as Hne.
      { intros <-. pose proof (fresh_not_allocated (heap w)) as Hf.
        fold a0 in Hf. rewrite Hf in Hl. by destruct Hl. }
      simpl. by rewrite lookup_insert_ne.
    - intros l. simpl. rewrite lookup_insert_None. tauto. }
  unfold load, requested_order.
  destruct (backendOrder opt) as [[name|ref]|].
  - destruct (decide (name = EmptyString)) as [Hn|Hn].
    all: match goal with |- context [new_array ?xs] =>
           destruct (Hlit xs) as (Hc & Hco & Hj & Hfr & Hnone);
           destruct (load_from_slice dir opt (fresh (dom (heap w)))
             (mkWorld (<[fresh (dom (heap w)) := xs]> (heap w))
                      (console w) (journal w)))
             as (a & w1 & Hrun & Ha & Hca & Hco1 & Hj1 & Hfr1)
         end.
    all: exists a, w1; rewrite Hc in Hrun, Hca.
    all: split; [exact Hrun|].
    all: split; [by apply Hnone|].
    all: split; [done|]; split; [congruence|]; split; [congruence|].
    all: intros l Hl; destruct (Hfr l Hl) as [Hs He];
         rewrite (Hfr1 l Hs); done.
  - destruct (load_from_slice dir opt ref w)
      as (a & w1 & Hrun & Ha & Hca & Hco1 & Hj1 & Hfr1).
    exists a, w1. done.
  - match goal with |- context [new_array ?xs] =>
           destruct (Hlit xs) as (Hc & Hco & Hj & Hfr & Hnone);
           destruct (load_from_slice dir opt (fresh (dom (heap w)))
             (mkWorld (<[fresh (dom (heap w)) := xs]> (heap w))
                      (console w) (journal w)))
             as (a & w1 & Hrun & Ha & Hca & Hco1 & Hj1 & Hfr1)
         end.
    exists a, w1; rewrite Hc in Hrun, Hca.
    split; [exact Hrun|].
    split; [by apply Hnone|].
    split; [done|]; split; [congruence|]; split; [congruence|].
    intros l Hl; destruct (Hfr l Hl) as [Hs He];
         rewrite (Hfr1 l Hs); done.
Qed.

(** Every way the loop can end, given enough fuel for the array it
    works on.  Arrays other than its own are left alone.  A runner that
    comes back was made under a name of the order, by a registered
    class or by [Object]; an exception that leaves is the one of line
    206, the unknown-backend error, or one thrown by a handler or by
    the assignment of line 195. *)
Lemma load_loop_outcome dir opt opts order :
  ∀ fuel a w,
    contents a w = order → (length order < fuel)%nat →
    (∀ l, l ≠ a →
       heap (load_loop env fuel dir opt opts a w).2 !! l = heap w !! l) ∧
    match (load_loop env fuel dir opt opts a w).1 with
    | Return r =>
        constructor_at env (backendName r) = Some (klass r) ∧
        backendName r ∈ order ∧
        initialized r = true ∧
        runner_ignoreCache r = default false (ignoreCache opt)
    | Throw ex =>
        ex = Error "No backend is available" ∨
        (∃ k, k ∈ order ∧ js_in k (descriptorRunners env) = false ∧
              ex = unknown_backend k) ∨
        (∃ g, ex = Foreign g)
    | OutOfFuel => False
    end.
Proof.
  induction order as [|k rest IH]; intros fuel a w Ha Hlt;
    (destruct fuel as [|fuel]; [simpl in Hlt; lia|]).
  - rewrite load_loop_nil by done. simpl. eauto.
  - rewrite load_loop_cons with (k := k) (rest := rest) by done. simpl.
    set (w1 := mkWorld (<[a := rest]> (heap w)) (console w) (journal w)).
    destruct (initBackend_outcome k (opts !! k) w1) as (c & j & Hw & _ & Hr).
    destruct (initBackend env k (opts !! k) w1) as [r w2].
    simpl in Hw, Hr. subst w2.
    destruct r as [[rn|]|ex|]; [| |simpl|done].
    + match goal with |- context [load_into env dir opt k rn ?w'] =>
        destruct (load_into_outcome dir opt k rn w') as (c' & j' & Hw' & _ & Hout);
        destruct (load_into env dir opt k rn w') as [r' w2']
      end.
      simpl in Hw', Hout. subst w2'.
      destruct Hr as (Hk & Hn & Hi & _). simpl. split.
      * intros l Hl. by rewrite lookup_insert_ne.
      * destruct r' as [r'|ex|]; [| |done].
        -- destruct Hout as (Hkl & Hbn & Hic & Hin & _).
           rewrite Hbn, Hkl, Hn, Hin. split; [done|]. split; [by left|]. done.
        -- destruct Hout as (_ & g & ->). right. right. by exists g.
    + match goal with |- context [load_loop env fuel dir opt opts a ?w'] =>
        destruct (IH fuel a w') as [Hfr Hout]
      end.
      { apply contents_insert_eq. }
      { simpl in Hlt. lia. }
      split.
      * intros l Hl. rewrite (Hfr l Hl). simpl. by rewrite lookup_insert_ne.
      * destruct (load_loop env fuel dir opt opts a _).1 as [r|ex|];
          [| |done].
        -- destruct Hout as (? & ? & ? & ?). repeat split; try done.
           by right.
        -- destruct Hout as [->|[(k' & ? & ? & ->)|(g & ->)]]; [by left| |].
           ++ right. left. exists k'. split; [by right|done].
           ++ right. right. by exists g.
    + split.
      * intros l Hl. by rewrite lookup_insert_ne.
      * destruct Hr as (_ & [(Hk & _ & ->)|(_ & g & ->)]).
        -- right. left. exists k. split; [by left|done].
        -- right. right. by exists g.
Qed.


(** A run of candidates that never initialize is skipped: each leaves
    one warning and calls on itself only. *)
Lemma load_loop_skips dir opt opts pre :
  ∀ rest fuel a w,
    contents a w = pre ++ rest →
    (∀ k, k ∈ pre → never_initializes env k) →
    ∃ w' c j,
      load_loop env (length pre + fuel) dir opt opts a w =
        load_loop env fuel dir opt opts a w' ∧
      contents a w' = rest ∧
      console w' = console w ++ c ∧ length c = length pre ∧
      journal w' = journal w ++ j ∧ Forall (λ x, backend_of x ∈ pre) j.
Proof.
  induction pre as [|k pre IH]; intros rest fuel a w Ha Hpre.
  - exists w, [], []. by rewrite !app_nil_r.
  - simpl. rewrite load_loop_cons with (k := k) (rest := pre ++ rest) by done.
    simpl.
    set (w1 := mkWorld (<[a := pre ++ rest]> (heap w)) (console w) (journal w)).
    pose proof (Hpre k ltac:(by left) (opts !! k) w1) as Hnone.
    destruct (initBackend_outcome k (opts !! k) w1) as (c & j & Hw & Hj & Hr).
    apply initBackend_calls_on in Hj.
    destruct (initBackend env k (opts !! k) w1) as [r w2].
    simpl in Hnone, Hw, Hr. subst r w2. destruct Hr as (_ & msg & ->).
    match goal with
    | |- context [load_loop env (length pre + fuel) dir opt opts a ?w2] =>
        destruct (IH rest fuel a w2)
          as (w' & c' & j' & Hrun & Hc' & Hco & Hlen & Hjo & Hj')
    end.
    + apply contents_insert_eq.
    + intros k' Hk'. apply Hpre. by right.
    + exists w', (msg :: c'), (j ++ j'). simpl in Hco, Hjo.
      split; [done|]. split; [done|].
      split; [by rewrite Hco, <- app_assoc|]. split; [simpl; by rewrite Hlen|].
      split; [by rewrite Hjo, <- app_assoc|].
      apply Forall_app. split.
      * eapply Forall_impl; [exact Hj|]. intros x ->. by left.
      * eapply Forall_impl; [exact Hj'|]. intros x Hx. by right.
Qed.

Lemma load_loop_exhausted dir opt opts order fuel a w :
  contents a w = order → (length order < fuel)%nat →
  (∀ k, k ∈ order → never_initializes env k) →
  (load_loop env fuel dir opt opts a w).1 =
    Throw (Error "No backend is available").
Proof.
  intros Ha Hlt Hall.
  destruct (load_loop_skips dir opt opts order [] (fuel - length order) a w)
    as (w' & c & j & Hrun & Hnil & _); [by rewrite app_nil_r|done|].
  replace (length order + (fuel - length order))%nat with fuel in Hrun by lia.
  rewrite Hrun.
  destruct (fuel - length order)%nat as [|n] eqn:Hn; [lia|].
  by rewrite load_loop_nil.
Qed.

Lemma load_loop_unknown dir opt opts pre k rest fuel a w :
  contents a w = pre ++ k :: rest →
  (length pre < fuel)%nat →
  (∀ k', k' ∈ pre → never_initializes env k') →
  js_in k (descriptorRunners env) = false →
  (load_loop env fuel dir opt opts a w).1 = Throw (unknown_backend k).
Proof.
  intros Ha Hlt Hpre Hk.
  destruct (load_loop_skips dir opt opts pre (k :: rest)
              (fuel - length pre) a w) as (w' & c & j & Hrun & Hc & _); [done..|].
  replace (length pre + (fuel - length pre))%nat with fuel in Hrun by lia.
  rewrite Hrun.
  destruct (fuel - length pre)%nat as [|n] eqn:Hn; [lia|].
  rewrite load_loop_cons with (k := k) (rest := rest) by done. simpl.
  by rewrite initBackend_unknown.
Qed.

(** A turn of the loop on a registered backend that initializes:
    [load()] is called on it, and the loop ends there. *)
Lemma load_loop_initializes dir opt opts fuel a w k rest cls :
  descriptorRunners env !! k = Some cls →
  contents a w = k :: rest →
  construct cls (journal w) (opts !! k) = None →
  init cls (journal w ++ [CallNew k (opts !! k)]) = None →
  load_loop env (S fuel) dir opt opts a w =
    let ic := default false (ignoreCache opt) in
    let w2 := mkWorld (<[a := rest]> (heap w)) (console w)
                (journal w ++ [CallNew k (opts !! k); CallInit k;
                               CallLoad k dir ic (progressCallback opt)]) in
    match load_model cls (journal w ++ [CallNew k (opts !! k); CallInit k])
                     dir ic (progressCallback opt) with
    | None => (Return (mkRunner cls k ic true true), w2)
    | Some f => load_catch k (mkRunner cls k ic true false) (Foreign f) w2
    end.
Proof.
  intros Hk Ha Hc Hi.
  rewrite load_loop_cons with (k := k) (rest := rest) by done. simpl.
  erewrite initBackend_succeeds by (done || by apply constructor_at_own).
  rewrite load_into_unfold.
  rewrite assign_ignoreCache_registered by (simpl; eauto).
  rewrite load_attempt. simpl. rewrite <- !app_assoc. simpl.
  by destruct (load_model _ _ _ _ _).
Qed.


(** What a run shows does not depend on where its array lives nor on
    what else is on the heap. *)
Lemma initBackend_observe k o w w' :
  console w = console w' → journal w = journal w' →
  observe (initBackend env k o w) = observe (initBackend env k o w').
Proof.
  intros Hc Hj. unfold observe.
  rewrite (initBackend_frame k o w), (initBackend_frame k o w').
  simpl. by rewrite Hc, Hj.
Qed.

Lemma load_into_observe dir opt opt' k r w w' :
  ignoreCache opt = ignoreCache opt' →
  progressCallback opt = progressCallback opt' →
  console w = console w' → journal w = journal w' →
  observe (load_into env dir opt k r w) = observe (load_into env dir opt' k r w').
Proof.
  intros Hi Hp Hc Hj. unfold observe.
  rewrite (load_into_frame dir opt k r w), (load_into_frame dir opt' k r w').
  simpl. rewrite Hc, Hj. rewrite !load_into_unfold. by rewrite Hi, Hp.
Qed.

Lemma load_loop_observe dir opt opt' opts fuel :
  ignoreCache opt = ignoreCache opt' →
  progressCallback opt = progressCallback opt' →
  ∀ a w a' w',
    contents a w = contents a' w' →
    console w = console w' → journal w = journal w' →
    observe (load_loop env fuel dir opt opts a w)
    = observe (load_loop env fuel dir opt' opts a' w').
Proof.
  intros Hi Hp.
  induction fuel as [|fuel IH]; intros a w a' w' Ha Hc Hj.
  { unfold observe. simpl. congruence. }
  destruct (contents a w) as [|k rest] eqn:Hcw.
  { rewrite !load_loop_nil by done. unfold observe. simpl. congruence. }
  rewrite load_loop_cons with (k := k) (rest := rest) by done.
  rewrite load_loop_cons with (a := a') (k := k) (rest := rest) by done.
  simpl.
  match goal with
  | |- context [initBackend env k ?o ?w1] =>
      match goal with
      | |- context [initBackend env k o ?w1'] =>
          tryif constr_eq w1 w1' then fail else
          pose proof (initBackend_observe k o w1 w1' Hc Hj) as Hobs;
          pose proof (initBackend_heap k o w1) as Hh;
          pose proof (initBackend_heap k o w1') as Hh';
          destruct (initBackend env k o w1) as [r w2];
          destruct (initBackend env k o w1') as [r' w2']
      end
  end.
  unfold observe in Hobs. simpl in Hobs, Hh, Hh'.
  injection Hobs as -> Hc2 Hj2.
  destruct r' as [[rn|]|ex|]; [| |unfold observe; simpl; congruence..].
  - by apply load_into_observe.
  - apply IH; [|done..]. unfold contents. rewrite Hh, Hh'. simpl.
    by rewrite !lookup_total_insert_eq.
Qed.

(** [load] settles: the loop never needs more turns than it is given. *)
Lemma load_settles dir opt w : (load env dir opt w).1 ≠ OutOfFuel.
Proof.
  destruct (load_unfold dir opt w) as (a & w1 & -> & _ & Hc & _).
  destruct (load_loop_outcome dir opt (default ∅ (backendOptions opt))
              (requested_order opt w) (S (length (requested_order opt w)))
              a w1 Hc ltac:(lia)) as [_ Hout].
  intros Heq. by rewrite Heq in Hout.
Qed.

Lemma registered_is_in k : BackendName k → js_in k (descriptorRunners env) = true.
Proof. intros Hk. apply js_in_registry. by left. Qed.

End WithEnv.

Local Arguments load_loop : simpl never.

(** ** The claims on [load] and [getBackendAvailability] *)

(** Two calls of [load] that differ only in how the order is given show
    the same when the requested orders agree. *)
Lemma load_observe_by_order env dir opt order w :
  requested_order (with_order opt order) w = requested_order opt w →
  observe (load env dir (with_order opt order) w) = observe (load env dir opt w).
Proof.
  intros Ho.
  destruct (load_unfold env dir (with_order opt order) w)
    as (a & w1 & -> & _ & Hc & Hco & Hj & _).
  destruct (load_unfold env dir opt w)
    as (a' & w1' & -> & _ & Hc' & Hco' & Hj' & _).
  rewrite Ho. apply load_loop_observe; try done; congruence.
Qed.

(** Whatever comes after it in the order, a backend that initializes is
    the one [load] resolves with, also when its [load()] rejected with
    something whose message can be read: the runner then comes back
    with [loaded] still false. *)
Lemma load_loop_hands_back_unloaded env dir opt opts fuel a w k rest cls f m :
  descriptorRunners env !! k = Some cls →
  contents a w = k :: rest →
  construct cls (journal w) (opts !! k) = None →
  init cls (journal w ++ [CallNew k (opts !! k)]) = None →
  load_model cls (journal w ++ [CallNew k (opts !! k); CallInit k]) dir
             (default false (ignoreCache opt)) (progressCallback opt) = Some f →
  message f = Gives m →
  (load_loop env (S fuel) dir opt opts a w).1
  = Return (mkRunner cls k (default false (ignoreCache opt)) true false).
Proof.
  intros Hk Ha Hc Hi Hl Hm.
  rewrite (load_loop_initializes env dir opt opts fuel a w k rest cls) by done.
  simpl. rewrite Hl, load_catch_outcome, Hm. done.
Qed.

(** When every candidate of the requested order fails to initialize,
    [load] rejects with the error of line 206. *)
Lemma load_exhausted_rejects env dir opt w :
  (∀ k, k ∈ requested_order opt w → never_initializes env k) →
  (load env dir opt w).1 = Throw (Error "No backend is available").
Proof.
  intros Hall.
  destruct (load_unfold env dir opt w) as (a & w1 & -> & _ & Hc & _).
  apply load_loop_exhausted with (order := requested_order opt w);
    [done|lia|done].
Qed.

(** C1 (the code departs from the claim).  WebGPU initializes but its
    model cannot be loaded, WebAssembly and fallback would work: [load]
    warns that it is trying the next backend and then resolves with the
    WebGPU runner, on which [load()] has not succeeded; no other
    backend is tried. *)
Theorem load_returns_runner_whose_load_failed :
  let out := load env_gpu_model_missing "./model" no_option empty_world in
  (∃ r, out.1 = Return r ∧ backendName r = "webgpu" ∧
        initialized r = true ∧ loaded r = false)
  ∧ console out.2 =
      ["Model loading failed for webgpu backend. Trying next backend: 404"]
  ∧ attempted (journal out.2) = ["webgpu"].
Proof. vm_compute. split; [eexists; repeat split|done]. Qed.

(** C2 (the code departs from the claim).  With the default order and
    neither WebGPU nor WebAssembly able to initialize, [load] rejects
    after those two candidates; fallback, which would have loaded, is
    never tried, because the result of [concat] is dropped. *)
Theorem load_gives_up_before_fallback :
  let out := load env_fallback_only "./model" no_option empty_world in
  out.1 = Throw (Error "No backend is available")
  ∧ attempted (journal out.2) = ["webgpu"; "webassembly"]
  ∧ indexOf "fallback" (requested_order no_option empty_world) = -1
  ∧ ∃ r, (load env_fallback_only "./model" (order_of "fallback") empty_world).1
           = Return r
         ∧ backendName r = "fallback" ∧ loaded r = true.
Proof. vm_compute. repeat split. eexists; repeat split. Qed.

(** C3 (the code departs from the claim).  No backend succeeds: WebGPU
    initializes but its [load()] rejects, WebAssembly and fallback
    cannot be initialized.  The order is exhausted without a backend
    that both initializes and loads, yet [load] does not reject with
    [Error('No backend is available')]: it warns and resolves with the
    WebGPU runner on which [load()] failed, and tries nothing else. *)
Theorem load_resolves_though_no_backend_succeeds :
  let out := load env_gpu_alone_model_missing "./model" no_option empty_world in
  (∃ r, out.1 = Return r ∧ backendName r = "webgpu" ∧ loaded r = false)
  ∧ out.1 ≠ Throw (Error "No backend is available")
  ∧ console out.2 =
      ["Model loading failed for webgpu backend. Trying next backend: 404"]
  ∧ attempted (journal out.2) = ["webgpu"]
  ∧ never_initializes env_gpu_alone_model_missing "webassembly"
  ∧ never_initializes env_gpu_alone_model_missing "fallback".
Proof.
  split; [vm_compute; eexists; repeat split|].
  split; [by vm_compute|]. split; [by vm_compute|]. split; [by vm_compute|].
  split; intros o w; reflexivity.
Qed.


(** C5. [getBackendAvailability] answers with a status for each of the
    three backends and nothing else, namely what its class reports,
    and with the order webgpu, webassembly, fallback cut down to the
    backends whose status is true: a backend is in [defaultOrder]
    exactly when its status is true, never when it is false, and the
    ones that are in keep their relative order. *)
Theorem getBackendAvailability_spec env :
  let availability := getBackendAvailability env in
  dom (status availability) = {[ "webgpu"; "webassembly"; "fallback" ]}
  ∧ status availability !! "webgpu"
      = Some (checkAvailability (DescriptorRunnerWebGPU env))
  ∧ status availability !! "webassembly"
      = Some (checkAvailability (DescriptorRunnerWebassembly env))
  ∧ status availability !! "fallback"
      = Some (checkAvailability (DescriptorRunnerFallback env))
  ∧ defaultOrder availability
      = filter (λ k, status availability !! k = Some true)
               ["webgpu"; "webassembly"; "fallback"]
  ∧ (∀ k, k ∈ defaultOrder availability ↔ status availability !! k = Some true)
  ∧ (∀ k, status availability !! k = Some false → k ∉ defaultOrder availability)
  ∧ sublist (defaultOrder availability) ["webgpu"; "webassembly"; "fallback"]
  ∧ NoDup (defaultOrder availability).
Proof.
  intros availability.
  assert (defaultOrder availability
          = filter (λ k, status availability !! k = Some true)
                   ["webgpu"; "webassembly"; "fallback"]) as Hdef by done.
  assert (∀ k, is_Some (status availability !! k) → BackendName k) as Hkeys.
  { intros k. unfold availability, getBackendAvailability, BackendName. simpl.
    rewrite !lookup_insert_is_Some, lookup_singleton_is_Some.
    intros [?|[_ [?|[_ ?]]]]; eauto. }
  split; [|split; [|split; [|split; [|split; [|split; [|split; [|split]]]]]]].
  - unfold availability, getBackendAvailability. simpl.
    rewrite !dom_insert_L, dom_singleton_L. set_solver.
  - unfold availability, getBackendAvailability, check. simpl.
    rewrite lookup_insert_eq. by rewrite registry_lookup.
  - unfold availability, getBackendAvailability, check. simpl.
    rewrite lookup_insert_ne by done. rewrite lookup_insert_eq.
    by rewrite registry_lookup.
  - unfold availability, getBackendAvailability, check. simpl.
    rewrite !lookup_insert_ne by done. rewrite lookup_singleton_eq.
    by rewrite registry_lookup.
  - done.
  - intros k. rewrite Hdef, list_elem_of_filter. split; [tauto|].
    intros Hk. split; [done|].
    destruct (Hkeys k) as [-> | [-> | ->]]; [by rewrite Hk|..]; set_solver.
  - intros k Hk. rewrite Hdef, list_elem_of_filter. rewrite Hk.
    intros [? _]. done.
  - rewrite Hdef. apply sublist_filter.
  - rewrite Hdef. apply NoDup_filter.
    apply (bool_decide_unpack _). vm_compute. exact I.
Qed.

(** C8 (the code departs from the claim).  ['toString'] is no key of
    the registry, yet [in] finds it on [Object.prototype]: where the
    unregistered name ['webgl'] is refused with the unknown-backend
    error, [initBackend] only warns and answers [null] for
    ['toString'], and [load] goes on to the next backend. *)
Theorem inherited_name_is_not_fatal :
  descriptorRunners env_fallback_only !! "toString" = None
  ∧ (initBackend env_fallback_only "toString" None empty_world).1 = Return None
  ∧ (initBackend env_fallback_only "toString" None empty_world).1
      ≠ Throw (unknown_backend "toString")
  ∧ (∃ r, (load env_fallback_only "./model" (order_at 1%positive)
                (world_with 1%positive ["toString"; "fallback"])).1 = Return r
          ∧ backendName r = "fallback")
  ∧ descriptorRunners env_fallback_only !! "webgl" = None
  ∧ (initBackend env_fallback_only "webgl" None empty_world).1
      = Throw (unknown_backend "webgl")
  ∧ (load env_fallback_only "./model" (order_at 1%positive)
          (world_with 1%positive ["webgl"; "fallback"])).1
      = Throw (unknown_backend "webgl").
Proof.
  vm_compute. split; [done|]. split; [done|]. split; [discriminate|].
  split; [eexists; split; reflexivity|]. done.
Qed.

(** A name for which [name in descriptorRunners] is false makes
    [initBackend] throw [Unknown backend: "name"] at once, and when the
    loop of [load] comes to that name, [load] rejects with that
    error. *)
Lemma unknown_backend_rejects env dir opt w pre k rest :
  js_in k (descriptorRunners env) = false →
  requested_order opt w = pre ++ k :: rest →
  (∀ k', k' ∈ pre → never_initializes env k') →
  (load env dir opt w).1 = Throw (unknown_backend k).
Proof.
  intros Hk Ho Hpre.
  destruct (load_unfold env dir opt w) as (a & w1 & -> & _ & Hc & _).
  apply load_loop_unknown with (pre := pre) (rest := rest); try done.
  - congruence.
  - rewrite Ho, length_app. simpl. lia.
Qed.

(** C9. A [backendOrder] given as one name makes the loop start on the
    one-element array of that name, and [load] then shows what it shows
    for an array that holds just that name; without a [backendOrder]
    the loop starts on [['webgpu', 'webassembly']], and [load] shows
    what it shows for that array. *)
Theorem load_normalizes_order env dir opt w :
  (∀ name, backendOrder opt = Some (OrderName name) →
           name ≠ EmptyString →
           starts_on env dir opt w [name]
           ∧ ∀ ref, contents ref w = [name] →
                    observe (load env dir opt w)
                    = observe (load env dir (with_order opt (OrderArray ref)) w))
  ∧ (backendOrder opt = None →
     starts_on env dir opt w ["webgpu"; "webassembly"]
     ∧ ∀ ref, contents ref w = ["webgpu"; "webassembly"] →
              observe (load env dir opt w)
              = observe (load env dir (with_order opt (OrderArray ref)) w)).
Proof.
  split.
  - intros name Ho Hne. split.
    + destruct (load_unfold env dir opt w)
        as (a & w1 & Hrun & _ & Hc & Hco & Hj & _).
      unfold requested_order in Hrun, Hc. rewrite Ho in Hrun, Hc.
      rewrite decide_False in Hrun, Hc by done.
      exists a, w1. done.
    + intros ref Href. symmetry. apply load_observe_by_order.
      unfold requested_order. simpl. rewrite Ho.
      by rewrite decide_False by done.
  - intros Ho. split.
    + destruct (load_unfold env dir opt w)
        as (a & w1 & Hrun & _ & Hc & Hco & Hj & _).
      unfold requested_order in Hrun, Hc. rewrite Ho in Hrun, Hc.
      exists a, w1. done.
    + intros ref Href. symmetry. apply load_observe_by_order.
      unfold requested_order. simpl. by rewrite Ho.
Qed.

(** C10. An array that is on the heap when [load] is called, the
    caller's [backendOrder] among them, holds the same elements in the
    same order once [load] has settled, resolved or rejected. *)
Theorem load_keeps_callers_order env dir opt ref w :
  backendOrder opt = Some (OrderArray ref) →
  is_Some (heap w !! ref) →
  contents ref (load env dir opt w).2 = contents ref w
  ∧ (∀ l, is_Some (heap w !! l) →
          heap (load env dir opt w).2 !! l = heap w !! l).
Proof.
  intros _ Href.
  assert (∀ l, is_Some (heap w !! l) →
               heap (load env dir opt w).2 !! l = heap w !! l) as Hframe.
  { intros l Hl.
    destruct (load_unfold env dir opt w) as (a & w1 & -> & Ha & Hc & _ & _ & Hfr).
    destruct (load_loop_outcome env dir opt (default ∅ (backendOptions opt))
                (requested_order opt w) (S (length (requested_order opt w)))
                a w1 Hc ltac:(lia)) as [Hloop _].
    rewrite Hloop; [by apply Hfr|].
    intros ->. rewrite Ha in Hl. by destruct Hl. }
  split; [|done].
  unfold contents. rewrite !lookup_total_alt. by rewrite Hframe.
Qed.

(** ** The theorems at work on the sample environments *)

Lemma env_nothing_never_initializes k :
  k ∈ ["webgpu"; "webassembly"; "fallback"] → never_initializes env_nothing k.
Proof.
  rewrite !elem_of_cons, elem_of_nil.
  intros [-> | [-> | [-> | []]]] o w; reflexivity.
Defined.


Lemma load_normalizes_order_witness :
  starts_on env_nothing "./model" (order_of "webassembly") empty_world
            ["webassembly"]
  ∧ starts_on env_nothing "./model" no_option empty_world
              ["webgpu"; "webassembly"].
Proof.
  split.
  - apply (proj1 (load_normalizes_order env_nothing "./model"
                    (order_of "webassembly") empty_world) "webassembly");
      [reflexivity|discriminate].
  - apply (proj2 (load_normalizes_order env_nothing "./model"
                    no_option empty_world)).
    reflexivity.
Defined.

Lemma load_keeps_callers_order_witness :
  contents 1%positive
    (load env_fallback_only "./model" (order_at 1%positive)
          (world_with 1%positive ["webgpu"; "fallback"])).2
  = ["webgpu"; "fallback"].
Proof.
  apply (proj1 (load_keeps_callers_order env_fallback_only "./model"
                  (order_at 1%positive) 1%positive
                  (world_with 1%positive ["webgpu"; "fallback"])
                  ltac:(reflexivity) ltac:(by eexists))).
Defined.

Lemma getBackendAvailability_spec_witness :
  "webgpu" ∉ defaultOrder (getBackendAvailability env_fallback_only).
Proof.
  apply (getBackendAvailability_spec env_fallback_only). reflexivity.
Defined.

(** The working copy is what [shift] consumes: after a [load] that went
    through both candidates, the caller's array is whole and the copy
    is empty. *)
Example load_consumes_its_copy :
  map_to_list
    (heap (load env_fallback_only "./model" (order_at 1%positive)
                (world_with 1%positive ["webgpu"; "fallback"])).2)
  = [(2%positive, []); (1%positive, ["webgpu"; "fallback"])].
Proof. reflexivity. Qed.

(** A [load()] that rejects with [undefined] makes the handler of
    line 200 throw in turn: [load] rejects with the engine's
    TypeError, after the three calls on that backend and without a
    warning. *)
Example load_rejects_from_its_handler :
  let out := load (env_of rejects_undefined works works) "./model" no_option
                  empty_world in
  out.1 = Throw (Foreign (an_Error "TypeError"
            "Cannot read properties of undefined (reading 'message')"))
  ∧ console out.2 = []
  ∧ journal out.2 = [CallNew "webgpu" None; CallInit "webgpu";
                     CallLoad "webgpu" "./model" false None].
Proof. by vm_compute. Qed.

(** With an option object for ['constructor'] that has an [init] and a
    [load] of its own, [load] resolves with that object: [Object] is
    what the registry inherits under that name. *)
Example load_resolves_with_the_option_object :
  let out := load env_option_is_runner "./model"
                  (mkInitOption (Some (OrderArray 1%positive))
                                (Some {[ "constructor" := 7%nat ]}) None None)
                  (world_with 1%positive ["constructor"]) in
  (∃ r, out.1 = Return r ∧ backendName r = "constructor")
  ∧ journal out.2 = [CallNew "constructor" (Some 7%nat);
                     CallInit "constructor";
                     CallLoad "constructor" "./model" false None].
Proof. vm_compute. split; [eexists; split; reflexivity|done]. Qed.

End WebDNNFacts.

(** * Properties of the crash tracker *)

Module ResNet50Facts.
Import WebDNN ResNet50.

Lemma keys_differ : KEY_WEBGPU_LAST_STATUS ≠ KEY_FLAG_WEBGPU_DISABLED_ALERT.
Proof. done. Qed.

Lemma getItem_setItem_eq key value b : getItem key (setItem key value b) = Some value.
Proof. unfold getItem, setItem. simpl. apply lookup_insert_eq. Qed.

Lemma getItem_setItem_ne key key' value b :
  key ≠ key' → getItem key' (setItem key value b) = getItem key' b.
Proof. intros. unfold getItem, setItem. simpl. by apply lookup_insert_ne. Qed.

Lemma crash_status_setItem value b :
  value ≠ EmptyString →
  crash_status (setItem KEY_WEBGPU_LAST_STATUS value b) = value.
Proof.
  intros Hv. unfold crash_status. rewrite getItem_setItem_eq. simpl.
  by rewrite bool_decide_eq_false_2.
Qed.

Lemma splice_head x (xs : list string) : JS.splice 0 1 (x :: xs) = xs.
Proof.
  unfold JS.splice. rewrite decide_False by lia.
  replace (Z.min 0 (Z.of_nat (length (x :: xs)))) with 0 by (simpl; lia).
  done.
Qed.

Section WithEnv.
Context (env : Env).

Lemma status_webgpu :
  status (getBackendAvailability env) !! "webgpu"
  = Some (checkAvailability (DescriptorRunnerWebGPU env)).
Proof.
  unfold getBackendAvailability, check, descriptorRunners. simpl.
  by rewrite !lookup_insert_eq.
Qed.

(** With webgpu available it heads the default order, and the
    [splice] of line 137 takes exactly it away. *)
Lemma disable_webgpu_order :
  status (getBackendAvailability env) !! "webgpu" = Some true →
  defaultOrder (getBackendAvailability env)
    = ("webgpu" :: defaultOrder (disable_webgpu (getBackendAvailability env)))
  ∧ ("webgpu" ∉ defaultOrder (disable_webgpu (getBackendAvailability env)))
  ∧ defaultOrder (disable_webgpu (getBackendAvailability env))
    = filter (λ k, status (getBackendAvailability env) !! k = Some true)
             ["webassembly"; "fallback"].
Proof.
  intros Hgpu.
  assert (defaultOrder (getBackendAvailability env)
          = ("webgpu" :: filter (λ k, status (getBackendAvailability env) !! k
                                      = Some true)
                                ["webassembly"; "fallback"])) as Hdef.
  { change (defaultOrder (getBackendAvailability env))
      with (filter (λ k, status (getBackendAvailability env) !! k = Some true)
                   ["webgpu"; "webassembly"; "fallback"]).
    by rewrite filter_cons_True. }
  unfold disable_webgpu. cbn [defaultOrder]. rewrite Hdef.
  unfold JS.indexOf. cbn [JS.index_from]. rewrite decide_True by done.
  rewrite splice_head.
  split; [done|]. split; [|done].
  rewrite list_elem_of_filter. intros [_ Hin].
  rewrite !elem_of_cons, elem_of_nil in Hin.
  destruct Hin as [?|[?|[]]]; done.
Qed.

End WithEnv.

(** What [check_last_status] does, by what it reads. *)
Lemma check_last_status_crashed p this b :
  status (getBackendAvailability (backends p)) !! "webgpu" = Some true →
  crash_status b = "running" ∨ crash_status b = "crashed" →
  check_last_status p this b =
    (disable_webgpu (getBackendAvailability (backends p)),
     mkApp (runner this) (crash_status b),
     let b1 := console_warn WARN_CRASHED (setItem KEY_WEBGPU_LAST_STATUS "crashed" b) in
     if truthy (getItem KEY_FLAG_WEBGPU_DISABLED_ALERT b) then b1
     else setItem KEY_FLAG_WEBGPU_DISABLED_ALERT "1" (alert ALERT_CRASHED b1)).
Proof.
  intros Hgpu Hst. unfold check_last_status.
  rewrite decide_True by done. fold (crash_status b). cbn [lastStatus].
  rewrite decide_True by done.
  replace (getItem KEY_FLAG_WEBGPU_DISABLED_ALERT
             (console_warn WARN_CRASHED (setItem KEY_WEBGPU_LAST_STATUS "crashed" b)))
    with (getItem KEY_FLAG_WEBGPU_DISABLED_ALERT b).
  2:{ unfold console_warn, getItem. simpl. by rewrite lookup_insert_ne. }
  by destruct (truthy (getItem KEY_FLAG_WEBGPU_DISABLED_ALERT b)).
Qed.

Lemma check_last_status_eligible p this b :
  status (getBackendAvailability (backends p)) !! "webgpu" = Some true →
  crash_status b ≠ "running" → crash_status b ≠ "crashed" →
  check_last_status p this b =
    (getBackendAvailability (backends p), mkApp (runner this) (crash_status b), b).
Proof.
  intros Hgpu Hr Hc. unfold check_last_status.
  rewrite decide_True by done. fold (crash_status b). cbn [lastStatus].
  rewrite decide_False; [done|]. intros [?|?]; done.
Qed.

Lemma check_last_status_no_gpu p this b :
  status (getBackendAvailability (backends p)) !! "webgpu" ≠ Some true →
  check_last_status p this b = (getBackendAvailability (backends p), this, b).
Proof. intros Hgpu. unfold check_last_status. by rewrite decide_False. Qed.

(** The flag, once set, stays set, and a set flag keeps the alert away. *)
Lemma check_last_status_flag p this b :
  flag_set b →
  flag_set (check_last_status p this b).2
  ∧ alerts (check_last_status p this b).2 = alerts b.
Proof.
  intros Hflag. unfold flag_set in *.
  destruct (decide (status (getBackendAvailability (backends p)) !! "webgpu"
                    = Some true)) as [Hgpu|Hgpu].
  2:{ by rewrite check_last_status_no_gpu. }
  destruct (decide (crash_status b = "running" ∨ crash_status b = "crashed"))
    as [Hst|Hst].
  - rewrite check_last_status_crashed by done. simpl. rewrite Hflag.
    split; [|done].
    unfold console_warn, getItem. simpl. by rewrite lookup_insert_ne.
  - rewrite check_last_status_eligible; [done|done|..];
      intros ?; apply Hst; eauto.
Qed.

Lemma step_flag e s :
  flag_set (browser s) →
  flag_set (browser (step e s)) ∧ alerts (browser (step e s)) = alerts (browser s).
Proof.
  intros Hflag. destruct e as [p| | |]; simpl.
  - unfold initialize.
    destruct (FLAG_CHROME_ANDROID p); [done|].
    destruct (check_last_status_flag p (mkApp None EmptyString) (browser s) Hflag)
      as [Hf Ha].
    destruct (check_last_status p _ (browser s)) as [[av this] b].
    simpl in Hf, Ha. by destruct (WebDNN_init p (defaultOrder av)).
  - unfold on_page. destruct (page s) as [this|]; [|done].
    unfold predict_begin. case_decide; [|done]. simpl. split; [|done].
    unfold flag_set. by rewrite getItem_setItem_ne.
  - unfold on_page. destruct (page s) as [this|]; [|done].
    unfold predict_end. case_decide; [|done]. simpl. split; [|done].
    unfold flag_set. by rewrite getItem_setItem_ne.
  - done.
Qed.

Lemma run_events_flag es :
  ∀ s, flag_set (browser s) →
       flag_set (browser (run_events es s))
       ∧ alerts (browser (run_events es s)) = alerts (browser s).
Proof.
  induction es as [|e es IH]; intros s Hflag; [done|].
  destruct (step_flag e s Hflag) as [Hf Ha].
  destruct (IH (step e s) Hf) as [Hf' Ha'].
  simpl. split; [done|congruence].
Qed.

Lemma in_default_order env k :
  k ∈ defaultOrder (getBackendAvailability env) →
  status (getBackendAvailability env) !! k = Some true.
Proof.
  change (defaultOrder (getBackendAvailability env))
    with (filter (λ k, status (getBackendAvailability env) !! k = Some true)
                 ["webgpu"; "webassembly"; "fallback"]).
  rewrite list_elem_of_filter. tauto.
Qed.

(** [initialize] on a fresh page, by what the store holds. *)
Lemma initialize_outcome p b :
  FLAG_CHROME_ANDROID p = false →
  initialize p (mkApp None EmptyString) b =
    let '(availability, this, b') := check_last_status p (mkApp None EmptyString) b in
    (mkApp (WebDNN_init p (defaultOrder availability)) (lastStatus this), b').
Proof.
  intros Hflag. unfold initialize. rewrite Hflag.
  assert (runner (check_last_status p (mkApp None EmptyString) b).1.2 = None) as Hr.
  { unfold check_last_status. repeat case_decide; done. }
  destruct (check_last_status p _ b) as [[av this] b']. simpl in Hr.
  destruct (WebDNN_init p (defaultOrder av)); [done|].
  destruct this; simpl in *; by subst.
Qed.

Lemma crash_status_after_crash b :
  crash_status
    (let b1 := console_warn WARN_CRASHED (setItem KEY_WEBGPU_LAST_STATUS "crashed" b) in
     if truthy (getItem KEY_FLAG_WEBGPU_DISABLED_ALERT b) then b1
     else setItem KEY_FLAG_WEBGPU_DISABLED_ALERT "1" (alert ALERT_CRASHED b1))
  = "crashed".
Proof.
  simpl. destruct (truthy (getItem KEY_FLAG_WEBGPU_DISABLED_ALERT b)).
  - unfold crash_status, console_warn, getItem. simpl. by rewrite lookup_insert_eq.
  - unfold crash_status, console_warn, getItem, alert. simpl.
    rewrite lookup_insert_ne by done. by rewrite lookup_insert_eq.
Qed.

Lemma step_coherent e s :
  honours_order e → coherent s → coherent (step e s).
Proof.
  intros Hhon Hco. destruct e as [p| | |]; simpl; [| | |done].
  - destruct (FLAG_CHROME_ANDROID p) eqn:Hflag.
    { unfold initialize. rewrite Hflag. unfold coherent. simpl. done. }
    rewrite initialize_outcome by done.
    destruct (decide (status (getBackendAvailability (backends p)) !! "webgpu"
                      = Some true)) as [Hgpu|Hgpu].
    2:{ rewrite check_last_status_no_gpu by done. unfold coherent. simpl.
        intros Hinit. apply Hhon, in_default_order in Hinit. done. }
    destruct (decide (crash_status (browser s) = "running"
                      ∨ crash_status (browser s) = "crashed")) as [Hst|Hst].
    + rewrite check_last_status_crashed by done. unfold coherent.
      cbn [page runner]. intros Hinit. apply Hhon in Hinit.
      by destruct (disable_webgpu_order (backends p) Hgpu) as (_ & Hnot & _).
    + rewrite check_last_status_eligible; [|done|..];
        [|intros ?; apply Hst; eauto..].
      unfold coherent. simpl. done.
  - unfold on_page, coherent in *. destruct (page s) as [this|] eqn:Hp; [|by rewrite Hp].
    unfold predict_begin. case_decide as Hc; simpl; [|done].
    intros _. by rewrite crash_status_setItem.
  - unfold on_page, coherent in *. destruct (page s) as [this|] eqn:Hp; [|by rewrite Hp].
    unfold predict_end. case_decide as Hc; simpl; [|done].
    intros _. by rewrite crash_status_setItem.
Qed.

Lemma step_allowed e s :
  honours_order e → coherent s →
  crash_status (browser s) = crash_status (browser (step e s))
  ∨ allowed (crash_status (browser s)) e (crash_status (browser (step e s))).
Proof.
  intros Hhon Hco. destruct e as [p| | |]; simpl; [| | |by left].
  - destruct (FLAG_CHROME_ANDROID p) eqn:Hflag.
    { unfold initialize. rewrite Hflag. by left. }
    rewrite initialize_outcome by done.
    destruct (decide (status (getBackendAvailability (backends p)) !! "webgpu"
                      = Some true)) as [Hgpu|Hgpu].
    2:{ rewrite check_last_status_no_gpu by done. by left. }
    destruct (decide (crash_status (browser s) = "running"
                      ∨ crash_status (browser s) = "crashed")) as [Hst|Hst].
    + rewrite check_last_status_crashed by done. cbn [browser].
      rewrite crash_status_after_crash.
      destruct Hst as [-> | ->]; [right; constructor|by left].
    + rewrite check_last_status_eligible; [by left|done|..];
        intros ?; apply Hst; eauto.
  - unfold on_page, coherent in *. destruct (page s) as [this|]; [|by left].
    unfold predict_begin. case_decide as Hc; simpl; [|by left].
    destruct Hc as [Hr Hl]. rewrite <- (Hco Hr), Hl.
    rewrite crash_status_setItem by done. right. constructor.
  - unfold on_page, coherent in *. destruct (page s) as [this|]; [|by left].
    unfold predict_end. case_decide as Hc; simpl; [|by left].
    destruct Hc as [Hr Hl]. rewrite <- (Hco Hr), Hl.
    rewrite crash_status_setItem by done. right. constructor.
Qed.

Lemma run_events_coherent es :
  ∀ s, coherent s → Forall honours_order es → coherent (run_events es s).
Proof.
  induction es as [|e es IH]; intros s Hco Hhon; [done|].
  inversion Hhon as [|? ? He Hes]; subst. simpl.
  apply IH; [by apply step_coherent|done].
Qed.


(** [predict] is its two halves run as events, with the outcome of
    [run()] in between. *)
Lemma predict_as_events run_resolves this b :
  predict run_resolves this b
  = let s := run_events
               [PredictBegin; if run_resolves then RunResolved else RunRejected]
               (mkInstallation b (Some this)) in
    (default this (page s), browser s).
Proof.
  unfold predict, run_events. simpl. unfold on_page. simpl.
  destruct (predict_begin this b) as [this1 b1]. simpl.
  destruct run_resolves; simpl; [|done].
  unfold on_page. simpl. by destruct (predict_end this1 b1).
Qed.

(** After a clean run the next page load starts on webgpu again. *)
Example clean_run_keeps_webgpu :
  step (Launch page_with_gpu) (mkInstallation ran_cleanly None)
  = mkInstallation ran_cleanly (Some (mkApp (Some "webgpu") "completed")).
Proof. reflexivity. Qed.

(** ** The claims on the crash tracker *)


(** C7, the claim as stated fails: on a Chrome-for-Android page
    [initialize] returns at line 122, before the check.  A session that
    starts with the status at running in a browser with WebGPU writes
    nothing and shows nothing; the status is still running afterwards
    and the page has no runner. *)
Lemma chrome_android_session_skips_the_check :
  FLAG_CHROME_ANDROID page_chrome_android = true
  ∧ status (getBackendAvailability (backends page_chrome_android)) !! "webgpu"
    = Some true
  ∧ getItem KEY_WEBGPU_LAST_STATUS died_running = Some "running"
  ∧ step (Launch page_chrome_android) (mkInstallation died_running None)
    = mkInstallation died_running (Some (mkApp None EmptyString))
  ∧ getItem KEY_WEBGPU_LAST_STATUS
      (browser (step (Launch page_chrome_android)
                     (mkInstallation died_running None)))
    ≠ Some "crashed"
  ∧ alerts (browser (step (Launch page_chrome_android)
                          (mkInstallation died_running None))) = []
  ∧ ¬ flag_set (browser (step (Launch page_chrome_android)
                              (mkInstallation died_running None))).
Proof. vm_compute. repeat split; done. Qed.

(** C7, as amended.  A session on a page that is not Chrome for
    Android, started with the persisted status at running while webgpu
    is available: the availability its check leaves has webgpu off,
    both in the status map and in the order, the other backends as
    they were, and that order is the one handed to [WebDNN.init];
    crashed is written; the alert is shown if and only if the alert
    flag is unset, and the flag is set then; afterwards the flag is set
    and no later event shows an alert again. *)
Theorem crash_check_drops_webgpu_and_alerts_once p b pg :
  FLAG_CHROME_ANDROID p = false →
  status (getBackendAvailability (backends p)) !! "webgpu" = Some true →
  getItem KEY_WEBGPU_LAST_STATUS b = Some "running" →
  let s' := step (Launch p) (mkInstallation b pg) in
  let b' := browser s' in
  let availability := (check_last_status p (mkApp None EmptyString) b).1.1 in
  (check_last_status p (mkApp None EmptyString) b).2 = b'
  ∧ page s' = Some (mkApp (WebDNN_init p (defaultOrder availability)) "running")
  ∧ status availability !! "webgpu" = Some false
  ∧ (∀ k, k ≠ "webgpu" →
          status availability !! k
          = status (getBackendAvailability (backends p)) !! k)
  ∧ ("webgpu" ∉ defaultOrder availability)
  ∧ defaultOrder (getBackendAvailability (backends p))
      = ("webgpu" :: defaultOrder availability)
  ∧ getItem KEY_WEBGPU_LAST_STATUS b' = Some "crashed"
  ∧ alerts b'
      = alerts b
        ++ (if truthy (getItem KEY_FLAG_WEBGPU_DISABLED_ALERT b)
            then [] else [ALERT_CRASHED])
  ∧ (truthy (getItem KEY_FLAG_WEBGPU_DISABLED_ALERT b) = false →
     getItem KEY_FLAG_WEBGPU_DISABLED_ALERT b' = Some "1")
  ∧ flag_set b'
  ∧ (∀ es, alerts (browser (run_events es s')) = alerts b').
Proof.
  intros Hflag Hgpu Hrun s' b' availability.
  assert (crash_status b = "running") as Hst.
  { unfold crash_status. by rewrite Hrun. }
  assert (availability = disable_webgpu (getBackendAvailability (backends p)))
    as Hav.
  { unfold availability. by rewrite check_last_status_crashed by eauto. }
  assert (check_last_status p (mkApp None EmptyString) b
          = (availability, mkApp None "running",
             let b1 := console_warn WARN_CRASHED
                         (setItem KEY_WEBGPU_LAST_STATUS "crashed" b) in
             if truthy (getItem KEY_FLAG_WEBGPU_DISABLED_ALERT b) then b1
             else setItem KEY_FLAG_WEBGPU_DISABLED_ALERT "1"
                          (alert ALERT_CRASHED b1))) as Hcheck.
  { rewrite Hav. rewrite check_last_status_crashed by eauto. by rewrite Hst. }
  assert (s' = mkInstallation (check_last_status p (mkApp None EmptyString) b).2
                 (Some (mkApp (WebDNN_init p (defaultOrder availability))
                              "running"))) as Hs'.
  { unfold s'. simpl. rewrite initialize_outcome by done.
    by rewrite Hcheck. }
  assert (b' = let b1 := console_warn WARN_CRASHED
                           (setItem KEY_WEBGPU_LAST_STATUS "crashed" b) in
               if truthy (getItem KEY_FLAG_WEBGPU_DISABLED_ALERT b) then b1
               else setItem KEY_FLAG_WEBGPU_DISABLED_ALERT "1"
                            (alert ALERT_CRASHED b1)) as Hb'.
  { unfold b'. rewrite Hs'. simpl. by rewrite Hcheck. }
  destruct (disable_webgpu_order (backends p) Hgpu) as (Hhead & Hnot & _).
  assert (flag_set b') as Hset.
  { rewrite Hb'. unfold flag_set. simpl.
    destruct (truthy (getItem KEY_FLAG_WEBGPU_DISABLED_ALERT b)) eqn:Hf.
    - unfold console_warn, getItem in *. simpl. by rewrite lookup_insert_ne.
    - by rewrite getItem_setItem_eq. }
  split; [unfold b'; by rewrite Hs'|]. split; [by rewrite Hs'|].
  rewrite Hav. split; [|split; [|split; [done|split; [done|]]]].
  { unfold disable_webgpu. simpl. by rewrite lookup_insert_eq. }
  { intros k Hk. unfold disable_webgpu. cbn [status].
    by rewrite lookup_insert_ne. }
  split; [|split; [|split; [|split; [done|]]]].
  - rewrite Hb'. simpl.
    destruct (truthy (getItem KEY_FLAG_WEBGPU_DISABLED_ALERT b)).
    + unfold console_warn, getItem. simpl. by rewrite lookup_insert_eq.
    + rewrite getItem_setItem_ne by done.
      unfold console_warn, alert, getItem. simpl. by rewrite lookup_insert_eq.
  - rewrite Hb'. simpl.
    destruct (truthy (getItem KEY_FLAG_WEBGPU_DISABLED_ALERT b));
      simpl; by rewrite ?app_nil_r.
  - intros Hf. rewrite Hb'. simpl. rewrite Hf. by rewrite getItem_setItem_eq.
  - intros es. fold b' in Hset |- *.
    by destruct (run_events_flag es s' Hset) as [_ ->].
Qed.

(** Over the life of an installation the alert is shown at most once. *)
Lemma step_alert e s :
  (¬ flag_set (browser s) ∧ alerts (browser s) = [])
  ∨ (flag_set (browser s) ∧ (length (alerts (browser s)) ≤ 1)%nat) →
  (¬ flag_set (browser (step e s)) ∧ alerts (browser (step e s)) = [])
  ∨ (flag_set (browser (step e s)) ∧ (length (alerts (browser (step e s))) ≤ 1)%nat).
Proof.
  intros [[Hun Hal]|[Hset Hal]].
  2:{ right. destruct (step_flag e s Hset) as [? ->]. done. }
  destruct e as [p| | |]; simpl; [| | |by left].
  - destruct (FLAG_CHROME_ANDROID p) eqn:Hflag.
    { unfold initialize. rewrite Hflag. by left. }
    rewrite initialize_outcome by done.
    destruct (decide (status (getBackendAvailability (backends p)) !! "webgpu"
                      = Some true)) as [Hgpu|Hgpu].
    2:{ rewrite check_last_status_no_gpu by done. by left. }
    destruct (decide (crash_status (browser s) = "running"
                      ∨ crash_status (browser s) = "crashed")) as [Hst|Hst].
    + rewrite check_last_status_crashed by done. cbn [browser]. right.
      unfold flag_set in Hun. apply not_true_is_false in Hun. simpl.
      rewrite Hun. unfold flag_set. rewrite getItem_setItem_eq.
      split; [done|]. unfold setItem, alert, console_warn. simpl.
      rewrite Hal. simpl. lia.
    + rewrite check_last_status_eligible; [by left|done|..];
        intros ?; apply Hst; eauto.
  - unfold on_page. destruct (page s) as [this|]; [|by left].
    unfold predict_begin. case_decide; simpl; [|by left]. left.
    unfold flag_set. by rewrite getItem_setItem_ne.
  - unfold on_page. destruct (page s) as [this|]; [|by left].
    unfold predict_end. case_decide; simpl; [|by left]. left.
    unfold flag_set. by rewrite getItem_setItem_ne.
Qed.

Lemma alert_at_most_once es :
  (length (alerts (browser (run_events es fresh_install))) ≤ 1)%nat.
Proof.
  assert (∀ s,
    (¬ flag_set (browser s) ∧ alerts (browser s) = [])
    ∨ (flag_set (browser s) ∧ (length (alerts (browser s)) ≤ 1)%nat) →
    (length (alerts (browser (run_events es s))) ≤ 1)%nat) as Hgen.
  { induction es as [|e es IH]; intros s Hs.
    - simpl. destruct Hs as [[_ Hs]|[_ Hs]]; [rewrite Hs; simpl; lia|done].
    - simpl. apply IH. by apply step_alert. }
  apply Hgen. left. split; [|done]. unfold flag_set. by vm_compute.
Qed.

(** ** The theorems at work on the sample pages *)

Lemma page_with_gpu_honours_order : honours_order (Launch page_with_gpu).
Proof.
  intros [|k order] Hk; [discriminate|].
  injection Hk as ->. by left.
Defined.


Lemma crash_check_witness :
  alerts (browser (step (Launch page_with_gpu)
                        (mkInstallation died_running None)))
  = [ALERT_CRASHED]
  ∧ getItem KEY_WEBGPU_LAST_STATUS
      (browser (step (Launch page_with_gpu) (mkInstallation died_running None)))
    = Some "crashed".
Proof.
  pose proof (crash_check_drops_webgpu_and_alerts_once page_with_gpu
                died_running None
                ltac:(reflexivity) ltac:(reflexivity) ltac:(reflexivity))
    as (_ & _ & _ & _ & _ & _ & Hstatus & Halert & _).
  split; [exact Halert | exact Hstatus].
Defined.

End ResNet50Facts.

(** * More on [load] *)

Module LoadFacts.
Import JS WebDNN WebDNNFacts LoadLog.

Local Arguments load_loop : simpl never.

(** X1. An empty array as [backendOrder] is truthy, so it is not replaced
    by the default: [load] rejects at once with
    [Error('No backend is available')], without a call to any backend
    and without a word on the console. *)
Theorem load_empty_order_rejects env dir opt ref w :
  backendOrder opt = Some (OrderArray ref) →
  contents ref w = [] →
  (load env dir opt w).1 = Throw (Error "No backend is available")
  ∧ console (load env dir opt w).2 = console w
  ∧ journal (load env dir opt w).2 = journal w.
Proof.
  intros Ho Hr.
  destruct (load_unfold env dir opt w) as (a & w1 & -> & _ & Hc & Hco & Hj & _).
  unfold requested_order in *. rewrite Ho in *. rewrite Hr in *.
  rewrite load_loop_nil by done. done.
Qed.



(** X3. Whatever runner [load] resolves with was made under a name of
    the requested order, by the registered class of that name or, for
    ['constructor'], by [Object]; [init()] has resolved on it and it
    carries [Boolean(initOption.ignoreCache)].  When the order holds
    registered backends only, the runner belongs to one of them. *)
Theorem load_resolved_runner env dir opt w runner :
  (load env dir opt w).1 = Return runner →
  backendName runner ∈ requested_order opt w
  ∧ constructor_at env (backendName runner) = Some (klass runner)
  ∧ (BackendName (backendName runner) ∨ backendName runner = "constructor")
  ∧ initialized runner = true
  ∧ runner_ignoreCache runner = default false (ignoreCache opt)
  ∧ (Forall BackendName (requested_order opt w) →
     BackendName (backendName runner)).
Proof.
  intros Hr.
  destruct (load_unfold env dir opt w) as (a & w1 & Hrun & _ & Hc & _).
  rewrite Hrun in Hr.
  destruct (load_loop_outcome env dir opt (default ∅ (backendOptions opt))
              (requested_order opt w) (S (length (requested_order opt w)))
              a w1 Hc ltac:(lia)) as [_ Hout].
  rewrite Hr in Hout. destruct Hout as (Hcls & Hin & Hi & Hic).
  split; [done|]. split; [done|]. split; [|split; [done|split; [done|]]].
  - destruct (constructor_at_name env _ _ Hcls) as [[? _]|[? _]]; eauto.
  - intros Hall. rewrite Forall_forall in Hall. by apply Hall.
Qed.

Lemma load_loop_log env dir opt opts fuel :
  ∀ a w, ∃ on l,
    journal (load_loop env fuel dir opt opts a w).2 = journal w ++ l
    ∧ load_log dir opt opts on l
    ∧ (∀ runner, (load_loop env fuel dir opt opts a w).1 = Return runner →
                 on = Some (backendName runner))
    ∧ (on = None →
       ∀ runner, (load_loop env fuel dir opt opts a w).1 ≠ Return runner).
Proof.
  induction fuel as [|fuel IH]; intros a w.
  { exists None, []. simpl. rewrite app_nil_r.
    split; [done|]. split; [constructor|]. done. }
  destruct (contents a w) as [|k rest] eqn:Ha.
  { rewrite load_loop_nil by done. exists None, []. simpl. rewrite app_nil_r.
    split; [done|]. split; [constructor|]. done. }
  rewrite load_loop_cons with (k := k) (rest := rest) by done. simpl.
  set (w1 := mkWorld (<[a := rest]> (heap w)) (console w) (journal w)).
  set (o := opts !! k).
  destruct (initBackend_outcome env k o w1) as (c & j & Hw & Hj & Hr).
  assert (failed_attempt opts j) as Hfail.
  { destruct Hj as [-> | [-> | ->]]; constructor. }
  destruct (initBackend env k o w1) as [r w2]. simpl in Hw, Hr. subst w2.
  destruct r as [[rn|]|ex|]; [| | |done].
  - destruct Hr as (_ & Hbn & _ & _ & _ & ->).
    match goal with |- context [load_into env dir opt k rn ?w3] =>
      destruct (load_into_outcome env dir opt k rn w3)
        as (c' & j' & Hw' & Hj' & Hout);
      destruct (load_into env dir opt k rn w3) as [r' w4]
    end.
    simpl in Hw', Hout. subst w4. rewrite Hbn in *.
    destruct Hj' as [-> | ->].
    + exists None, [CallNew k o; CallInit k]. simpl.
      split; [by rewrite app_nil_r|].
      split; [|by destruct r' as [r'|ex|]; [destruct Hout as (_&_&_&_&?&_)|..]].
      change [CallNew k o; CallInit k] with ([CallNew k o; CallInit k] ++ []).
      apply log_failed; [exact Hfail|apply log_rejected].
    + exists (Some k), [CallNew k o; CallInit k;
                        CallLoad k dir (default false (ignoreCache opt))
                                 (progressCallback opt)].
      simpl. split; [by rewrite <- app_assoc|]. split; [apply log_loaded|].
      split; [|done]. intros runner Hrun. destruct r' as [r'|ex|]; [|done..].
      injection Hrun as <-. by destruct Hout as (_ & -> & _).
  - match goal with |- context [load_loop env fuel dir opt opts a ?w2] =>
      destruct (IH a w2) as (on & l & Hjo & Hlog & Hres & Hnone) end.
    exists on, (j ++ l). simpl in Hjo.
    split; [by rewrite Hjo, <- app_assoc|].
    split; [by apply log_failed|]. done.
  - exists None, (j ++ []). simpl. rewrite app_nil_r.
    split; [done|]. split; [|done]. rewrite <- (app_nil_r j).
    apply log_failed; [done|apply log_rejected].
Qed.

Lemma load_log_loads dir opt opts on l :
  load_log dir opt opts on l →
  filter (λ c, is_load c = true) l
  = match on with
    | Some k => [CallLoad k dir (default false (ignoreCache opt))
                          (progressCallback opt)]
    | None => []
    end.
Proof.
  induction 1 as [|k|on a l Ha Hl IH]; [done|done|].
  rewrite filter_app, IH. by destruct Ha.
Qed.

(** X4. The calls [load] makes are, for each turn that does not get to
    [load()], nothing, or the constructor (given [backendOptions[name]]),
    or the constructor and then [init()]; then, on at most one backend,
    the constructor, [init()] and [load(directory, progressCallback)],
    made with [Boolean(initOption.ignoreCache)], after which no call
    follows.  When [load] resolves, that backend is the one it resolves
    with; when [load()] was called on no backend, [load] rejects. *)
Theorem load_calls env dir opt w :
  ∃ on l,
    journal (load env dir opt w).2 = journal w ++ l
    ∧ load_log dir opt (default ∅ (backendOptions opt)) on l
    ∧ filter (λ c, is_load c = true) l
      = match on with
        | Some k => [CallLoad k dir (default false (ignoreCache opt))
                              (progressCallback opt)]
        | None => []
        end
    ∧ (∀ runner, (load env dir opt w).1 = Return runner →
                 on = Some (backendName runner))
    ∧ (on = None → ∃ ex, (load env dir opt w).1 = Throw ex).
Proof.
  pose proof (load_settles env dir opt w) as Hsettles.
  destruct (load_unfold env dir opt w) as (a & w1 & Hrun & _ & _ & _ & Hj & _).
  rewrite Hrun in Hsettles |- *.
  destruct (load_loop_log env dir opt (default ∅ (backendOptions opt))
              (S (length (requested_order opt w))) a w1)
    as (on & l & Hl & Hlog & Hres & Hnone).
  exists on, l. rewrite Hl, Hj. split; [done|]. split; [done|].
  split; [by apply (load_log_loads _ _ _ _ _ Hlog)|]. split; [done|].
  intros Hon. specialize (Hnone Hon).
  destruct (load_loop env _ dir opt _ a w1).1 as [r|ex|]; [|by eauto|done].
  by destruct (Hnone r).
Qed.

(** *** [getBackendAvailability] and [load] together *)

Lemma check_class env :
  check env "webgpu" = checkAvailability (DescriptorRunnerWebGPU env)
  ∧ check env "webassembly" = checkAvailability (DescriptorRunnerWebassembly env)
  ∧ check env "fallback" = checkAvailability (DescriptorRunnerFallback env).
Proof. unfold check. by rewrite !registry_lookup. Qed.

(** The default order, backend by backend. *)
Lemma defaultOrder_by_backend env :
  defaultOrder (getBackendAvailability env)
  = (if checkAvailability (DescriptorRunnerWebGPU env) then ["webgpu"] else [])
    ++ (if checkAvailability (DescriptorRunnerWebassembly env)
        then ["webassembly"] else [])
    ++ (if checkAvailability (DescriptorRunnerFallback env)
        then ["fallback"] else []).
Proof.
  destruct (check_class env) as (Hg & Hw & Hf).
  unfold getBackendAvailability. cbn [defaultOrder].
  rewrite Hg, Hw, Hf.
  destruct (checkAvailability (DescriptorRunnerWebGPU env)),
           (checkAvailability (DescriptorRunnerWebassembly env)),
           (checkAvailability (DescriptorRunnerFallback env));
    by vm_compute.
Qed.

(** X5. [defaultOrder] is empty exactly when no backend says it is
    available; when fallback is available it comes last, and when
    webgpu is available it comes first. *)
Theorem defaultOrder_ends env :
  let order := defaultOrder (getBackendAvailability env) in
  (order = [] ↔
     checkAvailability (DescriptorRunnerWebGPU env) = false
     ∧ checkAvailability (DescriptorRunnerWebassembly env) = false
     ∧ checkAvailability (DescriptorRunnerFallback env) = false)
  ∧ (checkAvailability (DescriptorRunnerFallback env) = true →
     last order = Some "fallback")
  ∧ (checkAvailability (DescriptorRunnerWebGPU env) = true →
     head order = Some "webgpu").
Proof.
  intros order. unfold order. rewrite defaultOrder_by_backend.
  destruct (checkAvailability (DescriptorRunnerWebGPU env)),
           (checkAvailability (DescriptorRunnerWebassembly env)),
           (checkAvailability (DescriptorRunnerFallback env));
    simpl; repeat split; try done; by intros (? & ? & ?).
Qed.


(** ** The theorems at work on the sample environments *)




Lemma load_empty_order_rejects_witness :
  (load env_fallback_only "./model" (order_at 1%positive)
        (world_with 1%positive [])).1
  = Throw (Error "No backend is available").
Proof.
  apply (proj1 (load_empty_order_rejects env_fallback_only "./model"
                  (order_at 1%positive) 1%positive (world_with 1%positive [])
                  ltac:(reflexivity) ltac:(reflexivity))).
Defined.



Lemma load_resolved_runner_witness :
  "fallback" ∈ requested_order (order_at 1%positive)
                 (world_with 1%positive ["webgpu"; "fallback"])
  ∧ (BackendName "fallback" ∨ "fallback" = "constructor").
Proof.
  pose proof (load_resolved_runner env_fallback_only "./model"
                (order_at 1%positive)
                (world_with 1%positive ["webgpu"; "fallback"])
                (mkRunner works "fallback" false true true)
                ltac:(reflexivity)) as (Hin & _ & Hname & _).
  split; [exact Hin | exact Hname].
Defined.

Lemma defaultOrder_ends_witness :
  last (defaultOrder (getBackendAvailability env_fallback_only))
  = Some "fallback".
Proof.
  apply (proj1 (proj2 (defaultOrder_ends env_fallback_only))). reflexivity.
Defined.


End LoadFacts.

(** * More on the crash tracker *)

Module SessionFacts.
Import WebDNN ResNet50 ResNet50Facts Sessions.

Lemma no_move_from_crashed e b : ¬ allowed "crashed" e b.
Proof. inversion 1. Qed.

Lemma no_move_from_completed e b : ¬ allowed "completed" e b.
Proof. inversion 1. Qed.

Lemma status_stays (v : string) es :
  (∀ e b, ¬ allowed v e b) →
  ∀ s, coherent s → Forall honours_order es →
       crash_status (browser s) = v →
       crash_status (browser (run_events es s)) = v.
Proof.
  intros Hv. induction es as [|e es IH]; intros s Hco Hhon Hst; [done|].
  inversion Hhon as [|? ? He Hes]; subst. simpl. apply IH.
  - by apply step_coherent.
  - done.
  - destruct (step_allowed e s He Hco) as [Heq|Hal]; [congruence|].
    by apply Hv in Hal.
Qed.

(** A page load over a store that says crashed never ends up on webgpu. *)
Lemma launch_over_crashed p s :
  honours_order (Launch p) →
  crash_status (browser s) = "crashed" →
  off_webgpu (step (Launch p) s).
Proof.
  intros Hhon Hst. unfold off_webgpu. simpl.
  destruct (FLAG_CHROME_ANDROID p) eqn:Hflag.
  { unfold initialize. rewrite Hflag. simpl. done. }
  rewrite initialize_outcome by done.
  destruct (decide (status (getBackendAvailability (backends p)) !! "webgpu"
                    = Some true)) as [Hgpu|Hgpu].
  - rewrite check_last_status_crashed by eauto. cbn [page runner].
    intros Hinit. apply Hhon in Hinit.
    by destruct (disable_webgpu_order (backends p) Hgpu) as (_ & Hnot & _).
  - rewrite check_last_status_no_gpu by done. simpl.
    intros Hinit. apply Hhon, in_default_order in Hinit. done.
Qed.

(** X7. Once the persisted status is crashed it stays crashed, whatever
    pages are loaded and whatever is run, and no page loaded from then
    on runs on webgpu (the library handing out only backends of the
    order it is given): nothing in the page ever takes the mark back. *)
Theorem crashed_is_permanent es s p :
  coherent s → Forall honours_order es → honours_order (Launch p) →
  crash_status (browser s) = "crashed" →
  crash_status (browser (run_events es s)) = "crashed"
  ∧ off_webgpu (step (Launch p) (run_events es s)).
Proof.
  intros Hco Hhon Hp Hst.
  assert (crash_status (browser (run_events es s)) = "crashed") as Hlater.
  { by apply (status_stays "crashed" es no_move_from_crashed). }
  split; [done|]. by apply launch_over_crashed.
Qed.

(** X8. Once the persisted status is completed it stays completed: a
    later [run()] does not arm the tracker again, so a page that dies
    in a later webgpu run leaves no trace and the next page load starts
    on webgpu as before. *)
Theorem completed_is_permanent es s :
  coherent s → Forall honours_order es →
  crash_status (browser s) = "completed" →
  crash_status (browser (run_events es s)) = "completed"
  ∧ (∀ p this,
       status (getBackendAvailability (backends p)) !! "webgpu" = Some true →
       (check_last_status p this (browser (run_events es s))).1.1
       = getBackendAvailability (backends p)).
Proof.
  intros Hco Hhon Hst.
  assert (crash_status (browser (run_events es s)) = "completed") as Hlater.
  { by apply (status_stays "completed" es no_move_from_completed). }
  split; [done|]. intros p this Hgpu.
  rewrite check_last_status_eligible; [done|done|..]; by rewrite Hlater.
Qed.

(** X9. A [run()] that merely rejects, on a page that goes on living,
    leaves the status at running just as a crash would: the next page
    load in a browser with WebGPU marks webgpu as crashed, unless it is
    on Chrome for Android, where it returns before the check and the
    status stays at running; either way that page does not run on
    webgpu. *)
Theorem rejected_run_counts_as_crash s this p :
  coherent s → page s = Some this → runner this = Some "webgpu" →
  crash_status (browser s) = "none" →
  status (getBackendAvailability (backends p)) !! "webgpu" = Some true →
  honours_order (Launch p) →
  crash_status (browser (run_events [PredictBegin; RunRejected] s)) = "running"
  ∧ crash_status (browser (run_events [PredictBegin; RunRejected; Launch p] s))
    = (if FLAG_CHROME_ANDROID p then "running" else "crashed")
  ∧ off_webgpu (run_events [PredictBegin; RunRejected; Launch p] s).
Proof.
  intros Hco Hp Hr Hst Hgpu Hhon.
  assert (crash_status (browser (step PredictBegin s)) = "running") as Hrun.
  { simpl. unfold on_page. unfold coherent in Hco. rewrite Hp in Hco |- *.
    unfold predict_begin.
    rewrite decide_True by (split; [done|]; by rewrite Hco).
    simpl. by rewrite crash_status_setItem. }
  split; [done|].
  change (run_events [PredictBegin; RunRejected; Launch p] s)
    with (step (Launch p) (step PredictBegin s)).
  destruct (FLAG_CHROME_ANDROID p) eqn:Hflag.
  { unfold off_webgpu. cbn [step]. unfold initialize. rewrite Hflag.
    simpl. done. }
  split.
  - simpl. rewrite initialize_outcome by done.
    rewrite check_last_status_crashed by eauto. cbn [browser].
    apply crash_status_after_crash.
  - unfold off_webgpu. cbn [step]. rewrite initialize_outcome by done.
    rewrite check_last_status_crashed by eauto. cbn [page runner].
    intros Hinit. apply Hhon in Hinit.
    by destruct (disable_webgpu_order (backends p) Hgpu) as (_ & Hnot & _).
Qed.

Lemma step_without_webgpu e s :
  honours_order e → without_webgpu e → off_webgpu s →
  browser (step e s) = browser s ∧ off_webgpu (step e s).
Proof.
  intros Hhon Hno Hoff. destruct e as [p| | |]; simpl; [| | |done].
  - destruct (FLAG_CHROME_ANDROID p) eqn:Hflag.
    { unfold initialize, off_webgpu. rewrite Hflag. simpl. done. }
    rewrite initialize_outcome by done.
    rewrite check_last_status_no_gpu by done. unfold off_webgpu. simpl.
    split; [done|]. intros Hinit. apply Hhon, in_default_order in Hinit. done.
  - unfold on_page, off_webgpu in *. destruct (page s) as [this|] eqn:Hp;
      [|by rewrite ?Hp].
    unfold predict_begin. rewrite decide_False by tauto. simpl. by rewrite ?Hp.
  - unfold on_page, off_webgpu in *. destruct (page s) as [this|] eqn:Hp;
      [|by rewrite ?Hp].
    unfold predict_end. rewrite decide_False by tauto. simpl. by rewrite ?Hp.
Qed.

(** X10. In a browser without WebGPU the tracker is inert: whatever
    pages are loaded and whatever is run, nothing is written to
    [localStorage], nothing goes to the console and no alert is shown,
    also when the store says running or crashed. *)
Theorem tracker_inert_without_webgpu es :
  ∀ s, off_webgpu s →
       Forall honours_order es → Forall without_webgpu es →
       browser (run_events es s) = browser s.
Proof.
  induction es as [|e es IH]; intros s Hoff Hhon Hno; [done|].
  inversion Hhon as [|? ? He Hes]; subst.
  inversion Hno as [|? ? Hne Hnes]; subst.
  destruct (step_without_webgpu e s He Hne Hoff) as [Hb Hoff'].
  simpl. rewrite IH by done. done.
Qed.

(** ** The theorems at work on the sample pages *)

Lemma page_without_gpu_honours_order : honours_order (Launch page_without_gpu).
Proof.
  intros [|k order] Hk; [discriminate|].
  injection Hk as ->. by left.
Defined.

Lemma page_without_gpu_has_none : without_webgpu (Launch page_without_gpu).
Proof. discriminate. Defined.

Lemma crashed_is_permanent_witness :
  crash_status
    (browser (run_events [Launch page_with_gpu; PredictBegin; RunResolved]
                         (mkInstallation marked_crashed None)))
  = "crashed".
Proof.
  apply (proj1 (crashed_is_permanent
                  [Launch page_with_gpu; PredictBegin; RunResolved]
                  (mkInstallation marked_crashed None) page_with_gpu I
                  ltac:(repeat constructor; apply page_with_gpu_honours_order)
                  page_with_gpu_honours_order ltac:(reflexivity))).
Defined.

Lemma completed_is_permanent_witness :
  crash_status
    (browser (run_events [Launch page_with_gpu; PredictBegin; RunResolved]
                         (mkInstallation ran_cleanly None)))
  = "completed".
Proof.
  apply (proj1 (completed_is_permanent
                  [Launch page_with_gpu; PredictBegin; RunResolved]
                  (mkInstallation ran_cleanly None) I
                  ltac:(repeat constructor; apply page_with_gpu_honours_order)
                  ltac:(reflexivity))).
Defined.

Lemma rejected_run_counts_as_crash_witness :
  crash_status
    (browser (run_events [PredictBegin; RunRejected; Launch page_with_gpu]
                         on_webgpu))
  = "crashed".
Proof.
  apply (proj1 (proj2 (rejected_run_counts_as_crash on_webgpu
                         (mkApp (Some "webgpu") "none") page_with_gpu
                         ltac:(intros _; reflexivity) ltac:(reflexivity)
                         ltac:(reflexivity) ltac:(reflexivity)
                         ltac:(reflexivity)
                         page_with_gpu_honours_order))).
Defined.

Lemma tracker_inert_without_webgpu_witness :
  browser (run_events [Launch page_without_gpu; PredictBegin; RunResolved]
                      (mkInstallation died_running None))
  = died_running.
Proof.
  apply (tracker_inert_without_webgpu
           [Launch page_without_gpu; PredictBegin; RunResolved]
           (mkInstallation died_running None) I).
  - repeat constructor. apply page_without_gpu_honours_order.
  - repeat constructor. apply page_without_gpu_has_none.
Defined.

End SessionFacts.

(** * The page of the demo *)

Module DemoFacts.
Import ResNet50 DemoPage.

(** X11. [setState] always records the state.  It throws only for
    [STAND_BY] while there is no runner, and then shows nothing: message
    and button stay as they were.  When it does not throw, a button
    that is there ends up enabled exactly in [STAND_BY], and a message
    element that is there gets a text that is not empty. *)
Theorem setState_shows runner s v :
  let v' := (setState runner s v).1 in
  state v' = Some s
  ∧ ((setState runner s v).2 ≠ Normal ↔ s = STAND_BY ∧ runner = None)
  ∧ ((setState runner s v).2 ≠ Normal →
     messageView v' = messageView v ∧ runButton v' = runButton v)
  ∧ ((setState runner s v).2 = Normal →
     (is_Some (runButton v) →
      ∃ btn, runButton v' = Some btn ∧ (disabled btn = false ↔ s = STAND_BY))
     ∧ (is_Some (messageView v) →
        ∃ msg, messageView v' = Some msg ∧ msg ≠ EmptyString)
     ∧ (runButton v = None → runButton v' = None)
     ∧ (messageView v = None → messageView v' = None)).
Proof.
  destruct v as [st [m|] [btn|]], s, runner as [name|]; simpl;
    unfold setRunButton, setMessage; simpl;
    (split; [done|]); (split; [split; [intros H; try done; by destruct H|
                                     intros [? ?]; done]|]);
    (split; [intros H; try done; by destruct H|]);
    intros Hn; try done; repeat split; try done;
    try (intros [? ?]; done);
    try (intros _; eexists; split; [done|]; try done; split; done).
Qed.


(** [loadRandomImage] keeps the index below the number of images. *)
Lemma loadRandomImage_range i : ((loadRandomImage i).1 < NUM_RANDOM_IMAGE)%nat.
Proof. unfold loadRandomImage. cbn [fst]. by apply Nat.mod_upper_bound. Qed.

(** X12. [loadRandomImage] walks through the six images in a circle:
    from an index below 6, six calls in a row load each image exactly
    once and end on the index they started from, and every call asks
    for [./assets/images/<k>.png] with [k] the next index, below 6. *)
Theorem loadRandomImage_cycles i :
  (i < NUM_RANDOM_IMAGE)%nat →
  loaded_images 6 i ≡ₚ seq 0 6
  ∧ last (loaded_images 6 i) = Some i
  ∧ (loadRandomImage i).1 = (if decide (i = 5%nat) then 0%nat else S i)
  ∧ (loadRandomImage i).2
    = "./assets/images/" +:+ pretty (loadRandomImage i).1 +:+ ".png".
Proof.
  unfold NUM_RANDOM_IMAGE. intros Hi.
  assert (i = 0 ∨ i = 1 ∨ i = 2 ∨ i = 3 ∨ i = 4 ∨ i = 5)%nat as Hcases by lia.
  destruct Hcases as [-> | [-> | [-> | [-> | [-> | ->]]]]];
    (split; [|done]); vm_compute; apply (bool_decide_unpack _); by vm_compute.
Qed.


Section Floats.
Context {F : Type} (f32_sub : option Z → Q → F).

Lemma channel_of_index p c :
  (c < 3)%nat → ((p * 3 + c) mod 3 = c ∧ (p * 3 + c) / 3 = p)%nat.
Proof.
  intros Hc. split.
  - symmetry. apply (Nat.mod_unique _ _ p); lia.
  - symmetry. apply (Nat.div_unique _ _ _ c); lia.
Qed.

Lemma filled_upto_0 px (v : list F) : filled_upto f32_sub 0 px v = v.
Proof.
  apply list_eq. intros i. unfold filled_upto. rewrite list_lookup_imap.
  by destruct (v !! i).
Qed.

(** Writing pixel [p] after the pixels before it. *)
Lemma set_pixel_filled w px (v : list F) y x :
  set_pixel f32_sub w px (filled_upto f32_sub (y * w + x) px v) y x
  = filled_upto f32_sub (S (y * w + x)) px v.
Proof.
  unfold set_pixel. generalize (y * w + x)%nat. intros p.
  apply list_eq. intros i.
  rewrite !list_lookup_insert, !length_insert.
  unfold filled_upto. rewrite !length_imap, !list_lookup_imap.
  destruct (channel_of_index p 0 ltac:(lia)) as [Hm0 Hd0].
  destruct (channel_of_index p 1 ltac:(lia)) as [Hm1 Hd1].
  destruct (channel_of_index p 2 ltac:(lia)) as [Hm2 Hd2].
  rewrite Nat.add_0_r in Hm0, Hd0.
  destruct (v !! i) as [xi|] eqn:Hi.
  - apply lookup_lt_Some in Hi as Hlt. simpl.
    repeat case_decide; try lia; f_equal; unfold input_of_pixel;
      try (replace i with (p * 3 + 2)%nat by lia; by rewrite Hm2, Hd2);
      try (replace i with (p * 3 + 1)%nat by lia; by rewrite Hm1, Hd1);
      try (replace i with (p * 3)%nat by lia; by rewrite Hm0, Hd0).
  - apply lookup_ge_None in Hi. simpl.
    repeat case_decide; try lia; done.
Qed.

Lemma row_filled w px (v : list F) y n :
  foldl (λ v x, set_pixel f32_sub w px v y x)
        (filled_upto f32_sub (y * w) px v) (seq 0 n)
  = filled_upto f32_sub (y * w + n) px v.
Proof.
  induction n as [|n IH]; [by rewrite Nat.add_0_r|].
  rewrite seq_S, foldl_app, IH. simpl.
  rewrite set_pixel_filled. f_equal. lia.
Qed.

Lemma fill_input_filled w h px (v : list F) :
  fill_input f32_sub w h px v = filled_upto f32_sub (h * w) px v.
Proof.
  unfold fill_input. rewrite <- (filled_upto_0 px v) at 1.
  induction h as [|h IH]; [done|].
  rewrite seq_S, foldl_app, IH. simpl.
  rewrite row_filled. f_equal. simpl. lia.
Qed.


(** X13. On a canvas with both sides above 0, [setInputImageData] goes
    through every pixel [(x, y)] and writes its blue, green and red
    bytes, in that order and each less its mean, to the three entries
    from [(y * w + x) * 3] on; the alpha byte is not read.  The length
    of [inputView] stays what it was, entries that fall past its end
    are dropped, and entries from [3 * w * h] on keep their value. *)
Theorem setInputImageData_writes canvas (v : list F) :
  width canvas ≠ 0%nat → height canvas ≠ 0%nat →
  ∃ v',
    setInputImageData f32_sub canvas (Some v) = (Some v', Normal)
    ∧ length v' = length v
    ∧ (∀ x y, (x < width canvas)%nat → (y < height canvas)%nat →
         let p := (y * width canvas + x)%nat in
         ((p * 3 < length v)%nat →
          v' !! (p * 3)%nat
          = Some (f32_sub (pixelData canvas !! (p * 4 + 2)%nat) (103939 # 1000)))
         ∧ ((p * 3 + 1 < length v)%nat →
            v' !! (p * 3 + 1)%nat
            = Some (f32_sub (pixelData canvas !! (p * 4 + 1)%nat) (116779 # 1000)))
         ∧ ((p * 3 + 2 < length v)%nat →
            v' !! (p * 3 + 2)%nat
            = Some (f32_sub (pixelData canvas !! (p * 4)%nat) (12368 # 100))))
    ∧ (∀ i, (3 * (height canvas * width canvas) ≤ i)%nat → v' !! i = v !! i).
Proof.
  intros Hw Hh. unfold setInputImageData.
  rewrite decide_False by tauto.
  eexists. split; [reflexivity|]. rewrite fill_input_filled.
  unfold filled_upto. split; [apply length_imap|]. split.
  - intros x y Hx Hy. set (p := (y * width canvas + x)%nat).
    assert (p < height canvas * width canvas)%nat as Hp by (unfold p; nia).
    destruct (channel_of_index p 0 ltac:(lia)) as [Hm0 Hd0].
    destruct (channel_of_index p 1 ltac:(lia)) as [Hm1 Hd1].
    destruct (channel_of_index p 2 ltac:(lia)) as [Hm2 Hd2].
    rewrite Nat.add_0_r in Hm0, Hd0.
    repeat split; intros Hlen; rewrite list_lookup_imap;
      (destruct (lookup_lt_is_Some_2 v _ Hlen) as [xi ->]); simpl;
      rewrite decide_True by lia; unfold input_of_pixel.
    + by rewrite Hm0, Hd0.
    + by rewrite Hm1, Hd1.
    + by rewrite Hm2, Hd2.
  - intros i Hi. rewrite list_lookup_imap.
    destruct (v !! i); simpl; [|done]. by rewrite decide_False by lia.
Qed.

Lemma predict_begin_runner this b : runner (predict_begin this b).1 = runner this.
Proof. unfold predict_begin. by case_decide. Qed.

Lemma predict_end_runner this b : runner (predict_end this b).1 = runner this.
Proof. unfold predict_end. by case_decide. Qed.

(** X14. [predict] on a wired page ends normally exactly when the canvas
    has a size, [inputView] is set, there is a runner, [run()] resolves
    and the results can be shown; the page is then in [STAND_BY] with
    the button reading Run and enabled, the message gives the
    computation time, and the tracker has done what [predict] does for
    a run that resolves.  In every other case [predict] throws (being
    async, rejects) and leaves the page in [RUNNING] with the button
    disabled and the message reading [Running...]. *)
Theorem predict_page_outcome run_outcome show_outcome time canvas
    (d : @Demo F) b :
  wired (view d) →
  let out := predict_page f32_sub run_outcome show_outcome time canvas d b in
  (out.2 = Normal ↔
     run_outcome = None ∧ show_outcome = None
     ∧ width canvas ≠ 0%nat ∧ height canvas ≠ 0%nat
     ∧ is_Some (inputView d) ∧ is_Some (runner (app d)))
  ∧ (out.2 = Normal →
     state (view out.1.1) = Some STAND_BY
     ∧ runButton (view out.1.1) = Some (mkButton "Run" false)
     ∧ messageView (view out.1.1)
       = Some ("Computation Time: " +:+ time +:+ " [ms]")
     ∧ (app out.1.1, out.1.2) = predict true (app d) b)
  ∧ (out.2 ≠ Normal →
     state (view out.1.1) = Some RUNNING
     ∧ runButton (view out.1.1) = Some (mkButton "Running..." true)
     ∧ messageView (view out.1.1) = Some "Running...").
Proof.
  intros [[m Hm] [btn Hbtn]] out. unfold out, predict_page, predict.
  destruct d as [this [st mv rb] iv]. simpl in Hm, Hbtn. subst mv rb.
  cbn [app view inputView DemoPage.inputView].
  unfold setInputImageData.
  destruct (decide (width canvas = 0%nat ∨ height canvas = 0%nat)) as [Hz|Hz].
  { simpl. split; [|split; [done|done]].
    split; [done|]. intros (_ & _ & ? & ? & _). tauto. }
  destruct iv as [v|].
  2:{ simpl. split; [|split; [done|done]].
      split; [done|]. intros (_ & _ & _ & _ & [? ?] & _). done. }
  destruct (runner this) as [name|] eqn:Hr.
  2:{ simpl. split; [|split; [done|done]].
      split; [done|]. intros (_ & _ & _ & _ & _ & [? ?]). done. }
  pose proof (predict_begin_runner this b) as Hr1.
  destruct (predict_begin this b) as [this1 b1]. simpl in Hr1.
  destruct run_outcome as [e|].
  { simpl. split; [|split; [done|done]].
    split; [done|]. intros (? & _). done. }
  pose proof (predict_end_runner this1 b1) as Hr2.
  destruct (predict_end this1 b1) as [this2 b2]. simpl in Hr2.
  destruct show_outcome as [e|].
  { simpl. split; [|split; [done|done]].
    split; [done|]. intros (_ & ? & _). done. }
  rewrite Hr2, Hr1, Hr. simpl.
  split; [|split; [done|done]].
  split; [|done]. intros _. repeat split; try tauto; eauto.
Qed.

End Floats.

(** ** The theorems at work on the samples *)

Lemma setState_shows_witness :
  ∃ btn, runButton (setState (Some "webgpu") RUNNING ready_view).1 = Some btn
         ∧ (disabled btn = false ↔ RUNNING = STAND_BY).
Proof.
  apply (proj1 (proj2 (proj2 (proj2
           (setState_shows (Some "webgpu") RUNNING ready_view)))
           ltac:(reflexivity))).
  by eexists.
Defined.

Lemma loadRandomImage_cycles_witness :
  loaded_images 6 3 ≡ₚ seq 0 6 ∧ last (loaded_images 6 3) = Some 3%nat.
Proof.
  pose proof (loadRandomImage_cycles 3 ltac:(unfold NUM_RANDOM_IMAGE; lia))
    as (Hperm & Hlast & _).
  split; [exact Hperm | exact Hlast].
Defined.

Lemma setInputImageData_writes_witness :
  ∃ v',
    setInputImageData exact_sub one_pixel (Some [None; None; None])
    = (Some v', Normal)
    ∧ length v' = 3%nat.
Proof.
  destruct (setInputImageData_writes exact_sub one_pixel [None; None; None]
              ltac:(discriminate) ltac:(discriminate))
    as (v' & Hrun & Hlen & _).
  exists v'. split; [exact Hrun | exact Hlen].
Defined.

Lemma predict_page_outcome_witness :
  state (view (predict_page exact_sub None None "12.34" one_pixel ready_demo
                            (mkBrowser ∅ [] [])).1.1)
  = Some STAND_BY.
Proof.
  apply (proj1 (proj2 (predict_page_outcome exact_sub None None "12.34"
                         one_pixel ready_demo (mkBrowser ∅ [] [])
                         ltac:(split; by eexists)))).
  reflexivity.
Defined.

End DemoFacts.

(** * The patterns of [window.onload] *)

Module OnLoadFacts.
Import ResNet50 RegExp OnLoad.

(** *** The greedy star *)

(** When what follows fails after every longer run, the star hands over
    where it stands. *)
Lemma star_here (P : code_unit → bool) c k y :
  (∀ y1 y2, y = y1 ++ y2 → y1 ≠ [] → Forall P y1 → k y2 c = None) →
  star P y c k = k y c.
Proof.
  induction y as [|a y IH]; intros Hlonger; [done|]. simpl.
  destruct (P a) eqn:Ha; [|done].
  rewrite IH.
  - by rewrite (Hlonger [a] y) by (done || by constructor; [rewrite Ha|]).
  - intros y1 y2 -> Hne Hy1. apply (Hlonger (a :: y1) y2); [done|done|].
    constructor; [by rewrite Ha|done].
Qed.

(** The star takes the longest run after which what follows succeeds. *)
Lemma star_pick (P : code_unit → bool) c k x y :
  Forall P x →
  (∀ y1 y2, y = y1 ++ y2 → y1 ≠ [] → Forall P y1 → k y2 c = None) →
  is_Some (k y c) →
  star P (x ++ y) c k = k y c.
Proof.
  intros Hx Hlonger Hk. induction Hx as [|a x Ha Hx IH].
  { by apply star_here. }
  simpl. destruct (P a); [|done]. rewrite IH.
  by destruct Hk as [r ->].
Qed.

(** The star succeeds exactly when what follows succeeds after some
    run. *)
Lemma star_succeeds (P : code_unit → bool) c k s :
  is_Some (star P s c k) ↔
  ∃ a b, s = a ++ b ∧ Forall P a ∧ is_Some (k b c).
Proof.
  induction s as [|x s IH]; simpl.
  { split.
    - intros Hk. exists [], []. done.
    - intros (a & b & Hab & _ & Hk).
      symmetry in Hab. apply app_eq_nil in Hab as [-> ->]. done. }
  destruct (P x) eqn:Hx.
  - destruct (star P s c k) as [r|] eqn:Hs.
    + split; [intros _|by eauto].
      destruct (proj1 IH ltac:(by eauto)) as (a & b & -> & Ha & Hk).
      exists (x :: a), b. split; [done|]. split; [|done].
      constructor; [by rewrite Hx|done].
    + split.
      * intros Hk. exists [], (x :: s). done.
      * intros (a & b & Hab & Ha & Hk). destruct a as [|x' a].
        { simpl in Hab. by subst b. }
        simpl in Hab. injection Hab as <- ->.
        inversion Ha; subst.
        assert (is_Some (None : option captures)) as [? ?]; [|done].
        apply IH. by exists a, b.
  - split.
    + intros Hk. exists [], (x :: s). done.
    + intros (a & b & Hab & Ha & Hk). destruct a as [|x' a].
      { simpl in Hab. by subst b. }
      simpl in Hab. injection Hab as <- ->.
      inversion Ha as [|? ? Hx' ?]; subst. by rewrite Hx in Hx'.
Qed.

(** *** Literals and the search *)

Lemma literal_succeeds t c k s :
  is_Some (literal t s c k) ↔ ∃ s', s = t ++ s' ∧ is_Some (k s' c).
Proof.
  revert s. induction t as [|a t IH]; intros s; simpl.
  { split; [by eauto|]. by intros (s' & -> & Hk). }
  unfold then_, char_class. destruct s as [|b s].
  { split; [by intros [? ?]|]. by intros (s' & ? & _). }
  case_bool_decide as Hb.
  - subst b. rewrite IH. split.
    + intros (s' & -> & Hk). by exists s'.
    + intros (s' & Hs & Hk). injection Hs as ->. by exists s'.
  - split; [by intros [? ?]|]. intros (s' & Hs & _).
    injection Hs as ? _. done.
Qed.

Lemma exec_succeeds m s :
  is_Some (exec m s) ↔ ∃ a b, s = a ++ b ∧ is_Some (match_here m b).
Proof.
  induction s as [|x s IH]; simpl.
  { destruct (match_here m []) eqn:Hm.
    - split; [|by eauto]. intros _. exists [], []. by rewrite Hm.
    - split; [by intros [? ?]|]. intros (a & b & Hab & Hb).
      symmetry in Hab. apply app_eq_nil in Hab as [-> ->].
      by rewrite Hm in Hb. }
  destruct (match_here m (x :: s)) eqn:Hm.
  - split; [|by eauto]. intros _. exists [], (x :: s). by rewrite Hm.
  - rewrite IH. split.
    + intros (a & b & -> & Hb). by exists (x :: a), b.
    + intros (a & b & Hab & Hb). destruct a as [|x' a].
      { simpl in Hab. subst b. by rewrite Hm in Hb. }
      simpl in Hab. injection Hab as <- ->. by exists a, b.
Qed.

(** A match at the first position is the one [exec] gives. *)
Lemma exec_here m s r : match_here m s = Some r → exec m s = Some r.
Proof. intros Hm. destruct s; simpl; by rewrite Hm. Qed.

(** Positions at which the pattern fails are passed over. *)
Lemma exec_skip m pre s :
  (∀ p1 p2, pre = p1 ++ p2 → p2 ≠ [] → match_here m (p2 ++ s) = None) →
  exec m (pre ++ s) = exec m s.
Proof.
  induction pre as [|x pre IH]; intros Hfail; [done|].
  pose proof (Hfail [] (x :: pre) eq_refl ltac:(done)) as Hx.
  simpl in Hx |- *. rewrite Hx.
  apply IH. intros p1 p2 -> Hne. by apply (Hfail (x :: p1) p2).
Qed.


(** *** The user agent test *)

(** A user agent with [Android] and, later on the same line, [Chrome]
    sets the flag. *)
Lemma chrome_android_holds a m b :
  Forall dot m →
  chrome_android (a ++ units "Android" ++ m ++ units "Chrome" ++ b) = true.
Proof.
  intros Hm. unfold chrome_android. rewrite bool_decide_eq_true, exec_succeeds.
  unfold match_here, android_chrome, then_, group.
  exists a, (units "Android" ++ m ++ units "Chrome" ++ b). split; [done|].
  apply literal_succeeds. exists (m ++ units "Chrome" ++ b). split; [done|].
  apply star_succeeds. exists m, (units "Chrome" ++ b).
  split; [done|]. split; [done|].
  apply literal_succeeds. by exists b.
Qed.

(** X15. [FLAG_CHROME_ANDROID] is set exactly when the user agent holds
    [Android] and, somewhere after it with no line terminator (line
    feed, carriage return, U+2028, U+2029) in between, [Chrome]. *)
Theorem chrome_android_iff userAgent :
  chrome_android userAgent = true ↔
  ∃ a m b, userAgent = a ++ units "Android" ++ m ++ units "Chrome" ++ b
           ∧ Forall dot m.
Proof.
  split.
  - unfold chrome_android. rewrite bool_decide_eq_true, exec_succeeds.
    unfold match_here, android_chrome, then_, group.
    intros (a & b & Hab & Hm).
    apply literal_succeeds in Hm as (s1 & -> & Hm).
    apply star_succeeds in Hm as (x & y & -> & Hx & Hm).
    apply literal_succeeds in Hm as (s2 & -> & _).
    by exists a, x, s2.
  - intros (a & m & b & -> & Hm). by apply chrome_android_holds.
Qed.

(** X16. On a page whose flag comes from such a user agent,
    [initialize] stops at the notice that the application cannot work:
    the crash tracker is not consulted, nothing is stored or shown by
    it, [WebDNN.init] is not called and the page is left without a
    runner, whatever the backends are. *)
Theorem initialize_on_chrome_android a m b env init this br :
  Forall dot m →
  let userAgent := a ++ units "Android" ++ m ++ units "Chrome" ++ b in
  initialize (mkPage (chrome_android userAgent) env init) this br = (this, br).
Proof.
  intros Hm userAgent. unfold initialize. cbn [FLAG_CHROME_ANDROID].
  unfold userAgent. by rewrite chrome_android_holds.
Qed.

(** *** The delegate *)

Lemma not_slash_spec a : not_slash a ↔ a ≠ slash.
Proof.
  unfold not_slash. rewrite negb_True, bool_decide_spec. done.
Qed.

Lemma Forall_not_slash l : Forall not_slash l ↔ slash ∉ l.
Proof.
  rewrite Forall_forall. split.
  - intros Hl Hin. by apply (proj1 (not_slash_spec _) (Hl _ Hin)).
  - intros Hl a Hin. apply not_slash_spec. by intros ->.
Qed.

(** What follows capture 1 fails on input that goes on with something
    other than a question mark. *)
Lemma rest_fails a y c k :
  a ≠ question →
  then_ (optional (then_ (char_class question_mark) (star dot))) end_of_input
        (a :: y) c k = None.
Proof.
  intros Ha. unfold then_, optional, char_class, end_of_input, question_mark.
  by rewrite bool_decide_eq_false_2.
Qed.

(** The pattern fails wherever it is tried inside the directory part. *)
Lemma no_match_in_directory d s p1 p2 :
  question ∉ d →
  d ++ [slash] = p1 ++ p2 → p2 ≠ [] →
  match_here file_name (p2 ++ s) = None.
Proof.
  intros Hq Hd Hne. destruct p2 as [|a r]; [done|].
  unfold match_here, file_name. unfold then_ at 1. unfold group, plus.
  unfold then_ at 1. unfold char_class at 1. simpl.
  destruct (not_slash a) eqn:Ha; [|done].
  match goal with |- star ?P ?s ?c ?k = None =>
    destruct (star P s c k) as [res|] eqn:Hstar; [|done];
    assert (is_Some (star P s c k)) as Hs by (rewrite Hstar; eauto)
  end.
  apply star_succeeds in Hs as (x & y & Hxy & Hx & Hk).
  exfalso.
  (* [r] ends with the slash, [x] stops before it *)
  assert (∃ r', r = r' ++ [slash]) as [r' ->].
  { destruct (decide (r = [])) as [->|Hr].
    - apply app_inj_2 in Hd as [_ Hd]; [|done]. injection Hd as <-.
      by vm_compute in Ha.
    - destruct (exists_last Hr) as (r' & z & ->).
      assert (p1 ++ a :: r' ++ [z] = (p1 ++ a :: r') ++ [z]) as Heq
        by (by rewrite <- app_assoc).
      rewrite Heq in Hd.
      apply app_inj_2 in Hd as [_ Hd]; [|done]. injection Hd as <-.
      by exists r'. }
  assert (question ∉ r') as Hr'.
  { intros Hin. apply Hq.
    assert (p1 ++ a :: r' ++ [slash] = (p1 ++ a :: r') ++ [slash]) as Heq
      by (by rewrite <- app_assoc).
    rewrite Heq in Hd.
    apply app_inj_2 in Hd as [-> _]; [|done].
    rewrite elem_of_app. right. by right. }
  rewrite <- app_assoc in Hxy. simpl in Hxy.
  apply Forall_not_slash in Hx.
  symmetry in Hxy.
  apply app_eq_inv in Hxy as [(z & -> & Hz)|(z & -> & Hz)].
  - destruct z as [|b z].
    + simpl in Hz. subst y. rewrite rest_fails in Hk by done. by destruct Hk.
    + simpl in Hz. injection Hz as <- _.
      apply Hx. rewrite elem_of_app. right. by left.
  - destruct z as [|b z].
    + simpl in Hz. subst y. rewrite rest_fails in Hk by done. by destruct Hk.
    + subst y. simpl in Hk. rewrite rest_fails in Hk; [by destruct Hk|].
      intros ->. apply Hr'. rewrite elem_of_app. right. by left.
Qed.


(** At a file name that runs to the end of the input, capture 1 is the
    whole name. *)
Lemma match_at_file_name name :
  name ≠ [] → slash ∉ name →
  match_here file_name name = Some (Some name).
Proof.
  intros Hne Hname. destruct name as [|a n]; [done|].
  apply Forall_not_slash in Hname. inversion Hname as [|? ? Ha Hn]; subst.
  unfold match_here, file_name. unfold then_ at 1. unfold group, plus.
  unfold then_ at 1. unfold char_class at 1.
  destruct (not_slash a); [|done].
  rewrite <- (app_nil_r n) at 1. rewrite star_pick; [|done| |].
  - unfold then_, optional, char_class, end_of_input. simpl.
    by rewrite firstn_all.
  - intros y1 y2 Hy. symmetry in Hy. apply app_eq_nil in Hy as [-> _]. done.
  - done.
Qed.

(** At a file name that is followed by a query with a slash in it,
    capture 1 is the name without the query. *)
Lemma match_at_file_name_query name q1 q2 :
  name ≠ [] → slash ∉ name →
  slash ∉ q1 → question ∉ q1 →
  Forall dot (q1 ++ slash :: q2) →
  match_here file_name (name ++ question :: q1 ++ slash :: q2)
  = Some (Some name).
Proof.
  intros Hne Hname Hq1 Hq1' Hdot. destruct name as [|a n]; [done|].
  apply Forall_not_slash in Hname. inversion Hname as [|? ? Ha Hn]; subst.
  unfold match_here, file_name. unfold then_ at 1. unfold group, plus.
  unfold then_ at 1. unfold char_class at 1. simpl.
  destruct (not_slash a); [|done].
  set (q := q1 ++ slash :: q2) in *.
  assert (∀ c, star dot q c (λ s c, end_of_input s c (λ _ c', Some c'))
               = Some c) as Hq.
  { intros c. rewrite <- (app_nil_r q).
    rewrite (star_pick dot c _ q []); [done|done| |done].
    intros y1 y2 Hy. symmetry in Hy. apply app_eq_nil in Hy as [-> _]. done. }
  rewrite star_pick; [|done| |].
  - unfold then_, optional, char_class, question_mark. simpl. rewrite Hq.
    rewrite length_app. simpl.
    replace (length n + S (length q) - length q)%nat with (S (length n)) by lia.
    simpl. by rewrite take_app_length.
  - intros y1 y2 Hy Hy1 Hslash. apply Forall_not_slash in Hslash.
    destruct y1 as [|b y1]; [done|]. simpl in Hy. injection Hy as <- Hy.
    unfold q in Hy. apply app_eq_inv in Hy as [(z & -> & Hz)|(z & -> & Hz)].
    + destruct z as [|b z]; simpl in Hz.
      * subst y2. by apply rest_fails.
      * subst y2. apply rest_fails. intros ->. apply Hq1'.
        rewrite elem_of_app. right. by left.
    + destruct z as [|b z]; simpl in Hz.
      * subst y2. by apply rest_fails.
      * injection Hz as <- _. exfalso. apply Hslash.
        right. rewrite elem_of_app. right. by left.
  - unfold then_, optional, char_class, question_mark. simpl.
    by rewrite Hq.
Qed.

Lemma exec_after_directory dir s :
  directory dir → exec file_name (dir ++ s) = exec file_name s.
Proof.
  intros [[->|[d ->]] Hq]; [done|].
  apply exec_skip. intros p1 p2 Hp Hne.
  apply (no_match_in_directory d s p1 p2); [|done|done].
  intros Hin. apply Hq. rewrite elem_of_app. by left.
Qed.

(** X17. For a URL made of a directory part without a query and a file
    name that runs to its end, the delegate answers with the model host,
    the file name and [?raw=true&v=2].  A query on the file name that
    holds no slash counts as part of the name and is kept, so that the
    result then has two question marks. *)
Theorem transform_file dir name :
  directory dir → file name →
  transform (dir ++ name) = MODEL_HOST ++ name ++ units "?raw=true&v=2".
Proof.
  intros Hdir [Hne Hname]. unfold transform.
  rewrite exec_after_directory by done.
  by rewrite (exec_here _ _ _ (match_at_file_name name Hne Hname)).
Qed.

(** X18. A URL without a query that is empty or ends with a slash has no
    file name for the pattern to find: the delegate hands it back as it
    is. *)
Theorem transform_directory dir :
  directory dir → transform dir = dir.
Proof.
  intros Hdir. unfold transform.
  rewrite <- (app_nil_r dir) at 1. by rewrite exec_after_directory.
Qed.

(** X19. A query that holds a slash, with no question mark before that
    slash and no line terminator (line feed, carriage return, U+2028,
    U+2029) anywhere, is cut off: the delegate answers with the model
    host, the file name without that query and [?raw=true&v=2]. *)
Theorem transform_file_query dir name q1 q2 :
  directory dir → file name →
  slash ∉ q1 → question ∉ q1 →
  Forall dot (q1 ++ slash :: q2) →
  transform (dir ++ name ++ question :: q1 ++ slash :: q2)
  = MODEL_HOST ++ name ++ units "?raw=true&v=2".
Proof.
  intros Hdir [Hne Hname] Hq1 Hq1' Hdot. unfold transform.
  rewrite exec_after_directory by done.
  by rewrite (exec_here _ _ _
                (match_at_file_name_query name q1 q2 Hne Hname Hq1 Hq1' Hdot)).
Qed.

(** ** The theorems at work on sample URLs *)

Lemma models_is_directory : directory (units "./models/resnet50/").
Proof.
  split; [right; by exists (units "./models/resnet50")|].
  apply (bool_decide_unpack _). by vm_compute.
Defined.

Lemma weight_is_file : file (units "weight_webgpu.bin").
Proof.
  split; [discriminate|]. apply (bool_decide_unpack _). by vm_compute.
Defined.

Lemma chrome_android_iff_witness :
  chrome_android
    (units "Mozilla/5.0 (Linux; Android 7.0; Nexus 5X) Chrome/58.0 Mobile Safari/537.36")
  = true.
Proof.
  apply (proj2 (chrome_android_iff _)).
  exists (units "Mozilla/5.0 (Linux; "), (units " 7.0; Nexus 5X) "),
         (units "/58.0 Mobile Safari/537.36").
  split; [reflexivity|]. apply (bool_decide_unpack _). by vm_compute.
Defined.

Lemma initialize_on_chrome_android_witness :
  initialize
    (mkPage (chrome_android
               (units "Mozilla/5.0 (Linux; " ++ units "Android"
                ++ units " 7.0; Nexus 5X) " ++ units "Chrome"
                ++ units "/58.0 Mobile Safari/537.36"))
            env_all_work head)
    (mkApp None EmptyString) died_running
  = (mkApp None EmptyString, died_running).
Proof.
  apply (initialize_on_chrome_android (units "Mozilla/5.0 (Linux; ")
           (units " 7.0; Nexus 5X) ") (units "/58.0 Mobile Safari/537.36")).
  apply (bool_decide_unpack _). by vm_compute.
Defined.

Lemma transform_file_witness :
  transform (units "./models/resnet50/" ++ units "weight_webgpu.bin")
  = MODEL_HOST ++ units "weight_webgpu.bin" ++ units "?raw=true&v=2".
Proof.
  apply (transform_file _ _ models_is_directory weight_is_file).
Defined.

Lemma transform_directory_witness :
  transform (units "./models/resnet50/") = units "./models/resnet50/".
Proof. apply (transform_directory _ models_is_directory). Defined.

Lemma transform_file_query_witness :
  transform (units "./models/resnet50/" ++ units "weight_webgpu.bin"
             ++ question :: units "from=a" ++ slash :: units "b")
  = MODEL_HOST ++ units "weight_webgpu.bin" ++ units "?raw=true&v=2".
Proof.
  apply (transform_file_query _ _ _ _ models_is_directory weight_is_file).
  - apply (bool_decide_unpack _). by vm_compute.
  - apply (bool_decide_unpack _). by vm_compute.
  - apply (bool_decide_unpack _). by vm_compute.
Defined.

(** A line separator between [Android] and [Chrome] keeps the flag
    unset, as a line feed does. *)
Example line_separator_unsets_the_flag :
  chrome_android (units "Android" ++ [8232%N] ++ units "Chrome") = false
  ∧ chrome_android (units "Android" ++ [10%N] ++ units "Chrome") = false
  ∧ chrome_android (units "Android" ++ [32%N] ++ units "Chrome") = true.
Proof. by vm_compute. Qed.

(** A line separator in a query with a slash: the pattern then finds
    its match in what follows the slash. *)
Example line_separator_in_query :
  transform (units "dir/f.bin?a/b" ++ [8232%N] ++ units "c")
  = MODEL_HOST ++ units "b" ++ [8232%N] ++ units "c" ++ units "?raw=true&v=2".
Proof. by vm_compute. Qed.

End OnLoadFacts.
